(** * ty: board monitor and HalfKay engine, embedded in Rocq

    A shallow embedding of the parts of the ty sources that decide the
    behaviour of the board monitor ([libty/monitor.c]), of the Teensy family
    ([src/libty/board_teensy.c]) and of the older board manager
    ([src/board.c]), followed by the properties established about them.

    Conventions.
    - C integers are [Z]; unsigned 64-bit arithmetic wraps modulo [2^64]
      where the code can reach the bound, and a cast to [int] is written
      [to_int].
    - C strings are [string]; a [const char *] that may be [NULL] is an
      [option string].
    - Heap objects that the code compares by address (devices, interfaces,
      boards) carry their address as a [nat]; boards live in a [gmap] from
      addresses to records, because several lists point at the same board.
    - Functions returning an [int] status return [Z]; the places where the
      code builds an error with [ty_error()] return a [ty_err]. *)

From Stdlib Require Import ZArith Ascii String List Bool Lia Sorted.
From stdpp Require Import base decidable option list gmap strings pretty fin_maps sorting.

Local Open Scope Z_scope.

(** ** libc: [strtoull] *)

Module C.

Definition ULLONG_MAX : Z := 2 ^ 64 - 1.
Definition UINT32_MAX : Z := 2 ^ 32 - 1.

(** Unsigned 64-bit wrap-around. *)
Definition u64 (x : Z) : Z := x mod 2 ^ 64.

(** Conversion of an integer to [int] (32-bit two's complement). *)
Definition to_int (x : Z) : Z :=
  let y := x mod 2 ^ 32 in
  if y <? 2 ^ 31 then y else y - 2 ^ 32.

Definition code (c : ascii) : Z := Z.of_nat (nat_of_ascii c).

Definition isspace (c : ascii) : bool :=
  (code c =? 32) || ((9 <=? code c) && (code c <=? 13)).

(** Value of a digit character: [0-9], then letters of either case from 10. *)
Definition digit_value (c : ascii) : option Z :=
  let n := code c in
  if (48 <=? n) && (n <=? 57) then Some (n - 48)
  else if (97 <=? n) && (n <=? 122) then Some (n - 97 + 10)
  else if (65 <=? n) && (n <=? 90) then Some (n - 65 + 10)
  else None.

Fixpoint skip_space (s : string) : string :=
  match s with
  | String c r => if isspace c then skip_space r else s
  | EmptyString => s
  end.

(** The digit loop: accumulates while the next character is a digit of the
    base, and remembers whether the value left the range of the type. *)
Fixpoint digits (base : Z) (s : string) (acc : Z) (ovf : bool) : Z * bool :=
  match s with
  | EmptyString => (acc, ovf)
  | String c r =>
      match digit_value c with
      | Some d =>
          if d <? base then
            let v := acc * base + d in
            if ovf || (ULLONG_MAX <? v) then digits base r ULLONG_MAX true
            else digits base r v false
          else (acc, ovf)
      | None => (acc, ovf)
      end
  end.

Definition is_x (c : ascii) : bool := (code c =? 120) || (code c =? 88).

(** Sign, then the optional prefix: [0x]/[0X] for base 16 or 0, a leading
    [0] selecting octal for base 0. *)
Definition sign (s : string) : bool * string :=
  match s with
  | String c r =>
      if code c =? 45 then (true, r)
      else if code c =? 43 then (false, r)
      else (false, s)
  | EmptyString => (false, s)
  end.

Definition prefix (base : Z) (s : string) : Z * string :=
  match s with
  | String z (String x r) =>
      if (code z =? 48) && is_x x && ((base =? 0) || (base =? 16)) then (16, r)
      else if (code z =? 48) && (base =? 0) then (8, s)
      else if base =? 0 then (10, s)
      else (base, s)
  | String z EmptyString =>
      if (code z =? 48) && (base =? 0) then (8, s)
      else if base =? 0 then (10, s)
      else (base, s)
  | EmptyString => (if base =? 0 then 10 else base, s)
  end.

(** [strtoull(s, NULL, base)]: the value only, the end pointer is not used by
    any caller.  Out of range gives [ULLONG_MAX]; a minus sign negates in the
    unsigned type. *)
Definition strtoull (s : string) (base : Z) : Z :=
  let '(neg, s1) := sign (skip_space s) in
  let '(b, s2) := prefix base s1 in
  let '(v, ovf) := digits b s2 0 false in
  if ovf then ULLONG_MAX
  else if neg then u64 (- v) else v.

End C.

(** ** Shared declarations ([ty/common.h], [ty/board.h], [board_priv.h], libhs) *)

(** Modelled from the spec: the error kinds of [ty/common.h], which is not
    part of the sources (section 7: MEMORY, IO, ACCESS, NOT_FOUND, MODE,
    RANGE, FIRMWARE, UNSUPPORTED, SYSTEM). *)
Inductive ty_err : Set :=
  | TY_ERROR_MEMORY
  | TY_ERROR_IO
  | TY_ERROR_ACCESS
  | TY_ERROR_NOT_FOUND
  | TY_ERROR_MODE
  | TY_ERROR_RANGE
  | TY_ERROR_FIRMWARE
  | TY_ERROR_UNSUPPORTED
  | TY_ERROR_SYSTEM.

#[global] Instance ty_err_eq_dec : EqDecision ty_err.
Proof. solve_decision. Defined.

(** An [int] status: either the code of an error raised with [ty_error()],
    or any other value the function hands back (0 for success, the return
    value of a callback, ...). *)
Inductive ret : Set :=
  | Ret (r : Z)
  | Err (e : ty_err).

#[global] Instance ret_eq_dec : EqDecision ret.
Proof. solve_decision. Defined.

(** Modelled from the spec: [enum ty_board_capability] is declared in
    [ty/board.h], which is not part of the sources; the members are the
    capability set of section 3 and are numbered in the order it lists them. *)
Inductive ty_board_capability : Set :=
  | TY_BOARD_CAPABILITY_RUN
  | TY_BOARD_CAPABILITY_SERIAL
  | TY_BOARD_CAPABILITY_UPLOAD
  | TY_BOARD_CAPABILITY_RESET
  | TY_BOARD_CAPABILITY_REBOOT
  | TY_BOARD_CAPABILITY_IDENTIFY
  | TY_BOARD_CAPABILITY_UNIQUE.

#[global] Instance ty_board_capability_eq_dec : EqDecision ty_board_capability.
Proof. solve_decision. Defined.

Definition cap_index (c : ty_board_capability) : Z :=
  match c with
  | TY_BOARD_CAPABILITY_RUN => 0
  | TY_BOARD_CAPABILITY_SERIAL => 1
  | TY_BOARD_CAPABILITY_UPLOAD => 2
  | TY_BOARD_CAPABILITY_RESET => 3
  | TY_BOARD_CAPABILITY_REBOOT => 4
  | TY_BOARD_CAPABILITY_IDENTIFY => 5
  | TY_BOARD_CAPABILITY_UNIQUE => 6
  end.

Definition TY_BOARD_CAPABILITY_COUNT : nat := 7.

(** [1 << c] *)
Definition cap_bit (c : ty_board_capability) : Z := Z.shiftl 1 (cap_index c).

(** [caps |= 1 << c] *)
Definition cap_set (caps : Z) (c : ty_board_capability) : Z := Z.lor caps (cap_bit c).

(** The capability word holding exactly the members of [cs]. *)
Definition cap_word (cs : list ty_board_capability) : Z := fold_left cap_set cs 0.

(** libhs devices.  [dev_addr] is the address of the [hs_device] object, the
    key of the monitor's interface table.  [dev_open] is what opening the
    device gives at the time the monitor is told about it: [None] when it
    opens, the kind of the error otherwise (the handle itself is not
    modelled). *)
Inductive hs_device_type : Set := HS_DEVICE_TYPE_HID | HS_DEVICE_TYPE_SERIAL.
Inductive hs_device_status : Set := HS_DEVICE_STATUS_ONLINE | HS_DEVICE_STATUS_DISCONNECTED.

Record hs_device := {
  dev_addr : nat;
  dev_status : hs_device_status;
  dev_type : hs_device_type;
  dev_location : string;
  dev_vid : Z;
  dev_pid : Z;
  dev_serial_number_string : option string;
  dev_hid_usage_page : Z;
  dev_hid_usage : Z;
  dev_open : option ty_err
}.

(** [struct ty_board_model]: the members of [TY_BOARD_MODEL] that the code
    reads, then the Teensy ones. *)
Record ty_board_model := {
  family_name : string;
  name : string;
  mcu : string;
  code_size : Z;
  usage : Z;
  experimental : bool;
  halfkay_version : Z;
  block_size : Z
}.

#[global] Instance ty_board_model_eq_dec : EqDecision ty_board_model.
Proof. solve_decision. Defined.

(** Modelled from the spec: [ty_board_model_is_real] is not part of the
    sources; a model is real when it is not the [unknown] sentinel, which
    is the model without a code size ([teensy_update_board] tests
    [model->code_size] for the same purpose). *)
Definition ty_board_model_is_real (m : option ty_board_model) : bool :=
  match m with
  | Some m => negb (code_size m =? 0)
  | None => false
  end.

(** [struct ty_board_interface].  [if_addr] is the address of the object and
    [if_board] the back pointer to the owning board. *)
Record ty_board_interface := {
  if_addr : nat;
  if_dev : hs_device;
  if_name : option string;
  if_model : option ty_board_model;
  if_serial : Z;
  if_capabilities : Z;
  if_board : option nat
}.

Definition with_name (i : ty_board_interface) (n : string) :=
  {| if_addr := if_addr i; if_dev := if_dev i; if_name := Some n; if_model := if_model i;
     if_serial := if_serial i; if_capabilities := if_capabilities i; if_board := if_board i |}.
Definition with_model (i : ty_board_interface) (m : option ty_board_model) :=
  {| if_addr := if_addr i; if_dev := if_dev i; if_name := if_name i; if_model := m;
     if_serial := if_serial i; if_capabilities := if_capabilities i; if_board := if_board i |}.
Definition with_serial (i : ty_board_interface) (s : Z) :=
  {| if_addr := if_addr i; if_dev := if_dev i; if_name := if_name i; if_model := if_model i;
     if_serial := s; if_capabilities := if_capabilities i; if_board := if_board i |}.
Definition with_cap (i : ty_board_interface) (c : ty_board_capability) :=
  {| if_addr := if_addr i; if_dev := if_dev i; if_name := if_name i; if_model := if_model i;
     if_serial := if_serial i; if_capabilities := cap_set (if_capabilities i) c;
     if_board := if_board i |}.
Definition with_board (i : ty_board_interface) (b : nat) :=
  {| if_addr := if_addr i; if_dev := if_dev i; if_name := if_name i; if_model := if_model i;
     if_serial := if_serial i; if_capabilities := if_capabilities i; if_board := Some b |}.

(** An interface as [calloc] leaves it, holding a reference to its device. *)
Definition new_interface (addr : nat) (dev : hs_device) : ty_board_interface :=
  {| if_addr := addr; if_dev := dev; if_name := None; if_model := None;
     if_serial := 0; if_capabilities := 0; if_board := None |}.

(** A firmware image: [ty_firmware_get_image] and [ty_firmware_get_size]. *)
Record ty_firmware := { ty_firmware_get_image : list Z }.
Definition ty_firmware_get_size (fw : ty_firmware) : Z :=
  Z.of_nat (length (ty_firmware_get_image fw)).

(** [image[i]] *)
Definition byte_at (img : list Z) (i : nat) : Z := default 0 (img !! i).

(** ** The Teensy family ([src/libty/board_teensy.c]) *)

Module Teensy.

Record firmware_signature := {
  magic : Z;
  sig_model : ty_board_model;
  priority : Z
}.

Definition TEENSY_VID : Z := 0x16C0.

Definition TEENSY_USAGE_PAGE_BOOTLOADER : Z := 0xFF9C.
Definition TEENSY_USAGE_PAGE_RAWHID : Z := 0xFFAB.
Definition TEENSY_USAGE_PAGE_SEREMU : Z := 0xFFC9.

(** The members that an initializer leaves out are zero ([mcu] is [NULL],
    written as the empty string). *)
Definition teensy_unknown_model : ty_board_model :=
  {| family_name := "Teensy"; name := "Teensy"; mcu := ""; code_size := 0;
     usage := 0; experimental := false; halfkay_version := 0; block_size := 0 |}.

Definition teensy_pp10_model : ty_board_model :=
  {| family_name := "Teensy"; name := "Teensy++ 1.0"; mcu := "at90usb646"; code_size := 64512;
     usage := 0x1A; experimental := true; halfkay_version := 1; block_size := 256 |}.

Definition teensy_20_model : ty_board_model :=
  {| family_name := "Teensy"; name := "Teensy 2.0"; mcu := "atmega32u4"; code_size := 32256;
     usage := 0x1B; experimental := true; halfkay_version := 1; block_size := 128 |}.

Definition teensy_pp20_model : ty_board_model :=
  {| family_name := "Teensy"; name := "Teensy++ 2.0"; mcu := "at90usb1286"; code_size := 130048;
     usage := 0x1C; experimental := false; halfkay_version := 2; block_size := 256 |}.

Definition teensy_30_model : ty_board_model :=
  {| family_name := "Teensy"; name := "Teensy 3.0"; mcu := "mk20dx128"; code_size := 131072;
     usage := 0x1D; experimental := false; halfkay_version := 3; block_size := 1024 |}.

Definition teensy_31_model : ty_board_model :=
  {| family_name := "Teensy"; name := "Teensy 3.1"; mcu := "mk20dx256"; code_size := 262144;
     usage := 0x1E; experimental := false; halfkay_version := 3; block_size := 1024 |}.

Definition teensy_lc_model : ty_board_model :=
  {| family_name := "Teensy"; name := "Teensy LC"; mcu := "mkl26z64"; code_size := 63488;
     usage := 0x20; experimental := false; halfkay_version := 3; block_size := 512 |}.

Definition teensy_32_model : ty_board_model :=
  {| family_name := "Teensy"; name := "Teensy 3.2"; mcu := "mk20dx256"; code_size := 262144;
     usage := 0x21; experimental := false; halfkay_version := 3; block_size := 1024 |}.

Definition teensy_k64_model : ty_board_model :=
  {| family_name := "Teensy"; name := "Teensy 3.4"; mcu := "mk64fx512"; code_size := 524288;
     usage := 0x23; experimental := false; halfkay_version := 3; block_size := 1024 |}.

Definition teensy_k66_model : ty_board_model :=
  {| family_name := "Teensy"; name := "Teensy 3.5"; mcu := "mk66fx1m0"; code_size := 1048576;
     usage := 0x22; experimental := false; halfkay_version := 3; block_size := 1024 |}.

Definition teensy_models : list ty_board_model :=
  [ teensy_pp10_model; teensy_20_model; teensy_pp20_model; teensy_30_model;
    teensy_31_model; teensy_lc_model; teensy_32_model; teensy_k64_model;
    teensy_k66_model ].

Definition signatures : list firmware_signature :=
  [ {| magic := 0x0C94007EFFCFF894; sig_model := teensy_pp10_model; priority := 0 |};
    {| magic := 0x0C94003FFFCFF894; sig_model := teensy_20_model; priority := 0 |};
    {| magic := 0x0C9400FEFFCFF894; sig_model := teensy_pp20_model; priority := 0 |};
    {| magic := 0x38800440823F0400; sig_model := teensy_30_model; priority := 0 |};
    {| magic := 0x30800440823F0400; sig_model := teensy_31_model; priority := 0 |};
    {| magic := 0x34800440823F0000; sig_model := teensy_lc_model; priority := 0 |};
    {| magic := 0x30800440823F0400; sig_model := teensy_32_model; priority := 0 |};
    {| magic := 0x0100002B88ED00E0; sig_model := teensy_k64_model; priority := 1 |};
    {| magic := 0x002008E003000085; sig_model := teensy_k66_model; priority := 2 |} ].

(** [identify_model]: the first model of the table with this usage value,
    [None] for the [NULL] result. *)
Definition identify_model (usage_value : Z) : option ty_board_model :=
  find (fun m => usage m =? usage_value) teensy_models.

(** [parse_bootloader_serial] *)
Definition parse_bootloader_serial (s : option string) : Z :=
  match s with
  | None => 12345
  | Some s =>
      let serial := C.strtoull s 16 in
      if serial =? 100 then 0
      else if serial <? 10000000 then C.u64 (serial * 10)
      else serial
  end.

Definition accepted_pid (pid : Z) : bool :=
  (pid =? 0x478) || (pid =? 0x482) || (pid =? 0x483) || (pid =? 0x484)
  || (pid =? 0x485) || (pid =? 0x486) || (pid =? 0x487) || (pid =? 0x488).

(** [teensy_load_interface]: the status (0: not a Teensy, 1: loaded) and the
    interface as the function leaves it. *)
Definition teensy_load_interface (iface : ty_board_interface) : Z * ty_board_interface :=
  let dev := if_dev iface in
  if negb (dev_vid dev =? TEENSY_VID) then (0, iface)
  else if negb (accepted_pid (dev_pid dev)) then (0, iface)
  else
    let finish (i : ty_board_interface) :=
      (1, match if_model i with
          | None => with_model i (Some teensy_unknown_model)
          | Some _ => i
          end) in
    match dev_type dev with
    | HS_DEVICE_TYPE_SERIAL =>
        finish
          (with_cap (with_cap (with_cap (with_name iface "Serial")
             TY_BOARD_CAPABILITY_RUN) TY_BOARD_CAPABILITY_SERIAL) TY_BOARD_CAPABILITY_REBOOT)
    | HS_DEVICE_TYPE_HID =>
        let page := dev_hid_usage_page dev in
        if page =? TEENSY_USAGE_PAGE_BOOTLOADER then
          let i := with_model (with_name iface "HalfKay") (identify_model (dev_hid_usage dev)) in
          finish
            match if_model i with
            | Some _ => with_cap (with_cap i TY_BOARD_CAPABILITY_UPLOAD) TY_BOARD_CAPABILITY_RESET
            | None => i
            end
        else if page =? TEENSY_USAGE_PAGE_RAWHID then
          finish (with_cap (with_name iface "RawHID") TY_BOARD_CAPABILITY_RUN)
        else if page =? TEENSY_USAGE_PAGE_SEREMU then
          finish
            (with_cap (with_cap (with_cap (with_name iface "Seremu")
               TY_BOARD_CAPABILITY_RUN) TY_BOARD_CAPABILITY_SERIAL) TY_BOARD_CAPABILITY_REBOOT)
        else (0, iface)
    end.

(** The big-endian 64-bit word read at [image + i]. *)
Definition value8 (img : list Z) (i : nat) : Z :=
  Z.lor (Z.shiftl (byte_at img i) 56)
 (Z.lor (Z.shiftl (byte_at img (i + 1)) 48)
 (Z.lor (Z.shiftl (byte_at img (i + 2)) 40)
 (Z.lor (Z.shiftl (byte_at img (i + 3)) 32)
 (Z.lor (Z.shiftl (byte_at img (i + 4)) 24)
 (Z.lor (Z.shiftl (byte_at img (i + 5)) 16)
 (Z.lor (Z.shiftl (byte_at img (i + 6)) 8)
        (byte_at img (i + 7)))))))).

(** The state of the search: the current priority and the filled part
    [rguesses[0 .. count)] of the output array. *)
Definition guess_state : Type := Z * list ty_board_model.

(** Body of the inner loop, for one signature. *)
Definition guess_signature (value : Z) (max : nat) (st : guess_state)
    (sig : firmware_signature) : guess_state :=
  let '(prio, guesses) := st in
  if (value =? magic sig) && (prio <=? priority sig) then
    let '(prio, guesses) :=
      if prio <? priority sig then (priority sig, []) else (prio, guesses) in
    if (length guesses <? max)%nat then (prio, guesses ++ [sig_model sig])
    else (prio, guesses)
  else st.

(** Body of the outer loop, for one offset. *)
Definition guess_offset (img : list Z) (max : nat) (st : guess_state) (i : nat) : guess_state :=
  fold_left (guess_signature (value8 img i) max) signatures st.

(** [teensy_guess_models]: the guesses written to [rguesses]; their number is
    the return value. *)
Definition teensy_guess_models (fw : ty_firmware) (max : nat) : list ty_board_model :=
  let img := ty_firmware_get_image fw in
  let sz := ty_firmware_get_size fw in
  if sz <? 8 then []
  else snd (fold_left (guess_offset img max) (seq 0 (Z.to_nat (sz - 8))) (0, [])).

(** *** HalfKay

    The transport and the environment the engine runs against: the
    millisecond clock, the environment variable that opens the experimental
    models, the answers of the device to the successive [hs_hid_write] calls,
    and the reports written so far.  The clock advances in [ty_delay] only. *)

Inductive hs_err : Set :=
  | HS_ERROR_MEMORY
  | HS_ERROR_NOT_FOUND
  | HS_ERROR_ACCESS
  | HS_ERROR_IO
  | HS_ERROR_SYSTEM.

(** The [ssize_t] result of a libhs call. *)
Inductive hs_ret : Set :=
  | HsRet (n : Z)
  | HsErr (e : hs_err).

(** Modelled from the spec: [ty_libhs_translate_error] is not part of the
    sources; transport codes are mapped to the kind of the same name
    (section 7, error translation boundary). *)
Definition ty_libhs_translate_error (e : hs_err) : ty_err :=
  match e with
  | HS_ERROR_MEMORY => TY_ERROR_MEMORY
  | HS_ERROR_NOT_FOUND => TY_ERROR_NOT_FOUND
  | HS_ERROR_ACCESS => TY_ERROR_ACCESS
  | HS_ERROR_IO => TY_ERROR_IO
  | HS_ERROR_SYSTEM => TY_ERROR_SYSTEM
  end.

Record world := {
  millis : Z;
  experimental_boards : bool;
  hid_answers : nat -> hs_ret;
  hid_written : list (list Z)
}.

Definition ty_delay (w : world) (ms : Z) : world :=
  {| millis := millis w + ms; experimental_boards := experimental_boards w;
     hid_answers := hid_answers w; hid_written := hid_written w |}.

Definition hs_hid_write (w : world) (report : list Z) : world * hs_ret :=
  ({| millis := millis w; experimental_boards := experimental_boards w;
      hid_answers := hid_answers w; hid_written := hid_written w ++ [report] |},
   hid_answers w (length (hid_written w))).

(** [memcpy(buf + off, data, size)] into a buffer that has the room. *)
Definition memcpy (buf : list Z) (off : nat) (data : list Z) : list Z :=
  take off buf ++ data ++ drop (off + length data) buf.

Definition buf_size : nat := 2048.

(** The first part of [halfkay_send]: the report handed to [hs_hid_write],
    that is the first [size] bytes of [buf].  [None] when an assertion of the
    function fails. *)
Definition halfkay_frame (m : ty_board_model) (addr : Z) (data : list Z) : option (list Z) :=
  let buf := replicate buf_size 0 in
  if negb (length data <? buf_size - 65)%nat then None
  else if halfkay_version m =? 1 then
    let buf := <[1%nat := Z.land addr 255]> buf in
    let buf := <[2%nat := Z.land (Z.shiftr addr 8) 255]> buf in
    let buf := memcpy buf 3 data in
    Some (take (Z.to_nat (block_size m + 3)) buf)
  else if halfkay_version m =? 2 then
    let buf := <[1%nat := Z.land (Z.shiftr addr 8) 255]> buf in
    let buf := <[2%nat := Z.land (Z.shiftr addr 16) 255]> buf in
    let buf := memcpy buf 3 data in
    Some (take (Z.to_nat (block_size m + 3)) buf)
  else if halfkay_version m =? 3 then
    let buf := <[1%nat := Z.land addr 255]> buf in
    let buf := <[2%nat := Z.land (Z.shiftr addr 8) 255]> buf in
    let buf := <[3%nat := Z.land (Z.shiftr addr 16) 255]> buf in
    let buf := memcpy buf 65 data in
    Some (take (Z.to_nat (block_size m + 65)) buf)
  else None.

(** The [restart:] loop of [halfkay_send]: write, and on [HS_ERROR_IO] try
    again 10 ms later as long as less than [timeout] ms have passed since
    [start].  [None] when the fuel runs out. *)
Fixpoint write_retry (fuel : nat) (w : world) (report : list Z) (start timeout : Z)
    : option (world * hs_ret) :=
  let '(w, r) := hs_hid_write w report in
  match r with
  | HsErr HS_ERROR_IO =>
      if millis w - start <? timeout then
        match fuel with
        | O => None
        | S fuel => write_retry fuel (ty_delay w 10) report start timeout
        end
      else Some (w, r)
  | _ => Some (w, r)
  end.

(** [halfkay_send]; the interface is used for its model only. *)
Definition halfkay_send (w : world) (iface : ty_board_interface) (addr : Z) (data : list Z)
    (timeout : Z) : option (world * ret) :=
  m ← if_model iface;
  report ← halfkay_frame m addr data;
  '(w, r) ← write_retry (Z.to_nat timeout) w report (millis w) timeout;
  Some (w, match r with
           | HsErr HS_ERROR_IO => Err TY_ERROR_IO
           | HsErr e => Err (ty_libhs_translate_error e)
           | HsRet _ => Ret 0
           end).

(** [test_bootloader_support] *)
Definition test_bootloader_support (w : world) (m : ty_board_model) : ret :=
  if experimental m && negb (experimental_boards w) then Err TY_ERROR_UNSUPPORTED
  else Ret 0.

(** [teensy_reset] *)
Definition teensy_reset (w : world) (iface : ty_board_interface) : option (world * ret) :=
  m ← if_model iface;
  match test_bootloader_support w m with
  | Err e => Some (w, Err e)
  | Ret _ => halfkay_send w iface 0xFFFFFF [] 250
  end.

End Teensy.

(** ** The board manager ([src/board.c]) *)

Module Board.

Record firmware_signature := {
  sig_model : ty_board_model;
  magic : list Z
}.

Inductive ty_board_state : Set :=
  | TY_BOARD_STATE_DROPPED
  | TY_BOARD_STATE_CLOSED
  | TY_BOARD_STATE_ONLINE.

#[global] Instance ty_board_state_eq_dec : EqDecision ty_board_state.
Proof. solve_decision. Defined.

Inductive ty_board_event : Set :=
  | TY_BOARD_EVENT_ADDED
  | TY_BOARD_EVENT_CHANGED
  | TY_BOARD_EVENT_CLOSED
  | TY_BOARD_EVENT_DROPPED.

(** [struct ty_board_mode]: the members read by the functions below. *)
Record ty_board_mode := {
  mode_name : string;
  mode_capabilities : Z
}.

(** [struct ty_board] of the manager; [mode] and [model] may be [NULL]. *)
Record ty_board := {
  state : ty_board_state;
  mode : option ty_board_mode;
  model : option ty_board_model;
  serial : Z
}.

(** Modelled from the spec: the value of [TY_BOARD_UPLOAD_NOCHECK] comes from
    [ty/board.h], which is not part of the sources; it is one flag bit. *)
Definition TY_BOARD_UPLOAD_NOCHECK : Z := 1.

Section Build.

(** Whether the sources are compiled with [TY_EXPERIMENTAL] defined. *)
Variable TY_EXPERIMENTAL : bool.

(** The models are declared [extern] here; they are the ones of the Teensy
    family table. *)
Definition signatures : list firmware_signature :=
  (if TY_EXPERIMENTAL then
     [ {| sig_model := Teensy.teensy_pp10_model;
          magic := [0x0C; 0x94; 0x00; 0x7E; 0xFF; 0xCF; 0xF8; 0x94] |};
       {| sig_model := Teensy.teensy_20_model;
          magic := [0x0C; 0x94; 0x00; 0x3F; 0xFF; 0xCF; 0xF8; 0x94] |};
       {| sig_model := Teensy.teensy_pp20_model;
          magic := [0x0C; 0x94; 0x00; 0xFE; 0xFF; 0xCF; 0xF8; 0x94] |} ]
   else [])
  ++ [ {| sig_model := Teensy.teensy_30_model;
          magic := [0x38; 0x80; 0x04; 0x40; 0x82; 0x3F; 0x04; 0x00] |} ]
  ++ (if TY_EXPERIMENTAL then
        [ {| sig_model := Teensy.teensy_31_model;
             magic := [0x30; 0x80; 0x04; 0x40; 0x82; 0x3F; 0x04; 0x00] |} ]
      else []).

(** [memcmp(image + i, magic, magic_size) == 0] *)
Definition magic_at (img : list Z) (i : nat) (sig : firmware_signature) : bool :=
  bool_decide (take 8 (drop i img) = magic sig).

(** [ty_board_test_firmware]: the model of the first signature found at the
    lowest offset below [size - magic_size]. *)
Definition ty_board_test_firmware (f : ty_firmware) : option ty_board_model :=
  let img := ty_firmware_get_image f in
  let sz := ty_firmware_get_size f in
  if sz <? 8 then None
  else
    (fix offsets (todo : list nat) : option ty_board_model :=
       match todo with
       | [] => None
       | i :: todo =>
           match find (magic_at img i) signatures with
           | Some sig => Some (sig_model sig)
           | None => offsets todo
           end
       end) (seq 0 (Z.to_nat (sz - 8))).

End Build.

(** [parse_serial_number] *)
Definition parse_serial_number (s : option string) : Z :=
  match s with
  | None => 0
  | Some s =>
      let base :=
        match s with
        | String c _ => if C.code c =? 48 then 16 else 10
        | EmptyString => 10
        end in
      let serial := C.strtoull s base in
      if (base =? 16) && (serial <? 10000000) then C.u64 (serial * 10) else serial
  end.

(** [adjust_timeout], with the reading of [ty_millis()] as [now]. *)
Definition adjust_timeout (now : Z) (timeout : Z) (start : Z) : Z :=
  if timeout <? 0 then -1
  else if C.u64 (start + timeout) <? now then 0
  else C.to_int (C.u64 (start + timeout - now)).

(** [ty_board_get_capabilities] *)
Definition ty_board_get_capabilities (board : ty_board) : Z :=
  match mode board with
  | None => 0
  | Some m => mode_capabilities m
  end.

(** Modelled from the spec: [ty_board_has_capability] is declared in
    [ty/board.h], which is not part of the sources; it tests the bit of the
    capability in the board's capability word. *)
Definition ty_board_has_capability (board : ty_board) (c : ty_board_capability) : bool :=
  negb (Z.land (ty_board_get_capabilities board) (cap_bit c) =? 0).

Section Upload.

Variable TY_EXPERIMENTAL : bool.

(** [board->mode->vtable->upload]: the upload routine of the board's mode. *)
Variable vtable_upload : ty_board -> ty_firmware -> Z -> ret.

(** [ty_board_upload]; [None] when the function dereferences a [NULL]
    [board->model]. *)
Definition ty_board_upload (board : ty_board) (f : ty_firmware) (flags : Z) : option ret :=
  if negb (ty_board_has_capability board TY_BOARD_CAPABILITY_UPLOAD) then
    Some (Err TY_ERROR_MODE)
  else
    m ← model board;
    if code_size m <? ty_firmware_get_size f then Some (Err TY_ERROR_RANGE)
    else if Z.land flags TY_BOARD_UPLOAD_NOCHECK =? 0 then
      match ty_board_test_firmware TY_EXPERIMENTAL f with
      | None => Some (Err TY_ERROR_FIRMWARE)
      | Some guess =>
          if negb (ty_board_has_capability board TY_BOARD_CAPABILITY_IDENTIFY) then
            Some (Err TY_ERROR_MODE)
          else if negb (bool_decide (guess = m)) then Some (Err TY_ERROR_FIRMWARE)
          else Some (vtable_upload board f flags)
      end
    else Some (vtable_upload board f flags).

End Upload.

(** [ty_board_manager_list] over [manager->boards]: the calls made to [f], in
    order, and the return value. *)
Fixpoint ty_board_manager_list (boards : list ty_board)
    (f : ty_board -> ty_board_event -> Z) : list (ty_board * ty_board_event) * Z :=
  match boards with
  | [] => ([], 0)
  | board :: rest =>
      if bool_decide (state board = TY_BOARD_STATE_ONLINE) then
        let r := f board TY_BOARD_EVENT_ADDED in
        if r =? 0 then
          let '(calls, r) := ty_board_manager_list rest f in
          ((board, TY_BOARD_EVENT_ADDED) :: calls, r)
        else ([(board, TY_BOARD_EVENT_ADDED)], r)
      else ty_board_manager_list rest f
  end.

End Board.

(** ** The board monitor ([libty/monitor.c]) *)

Module Monitor.

Inductive ty_board_state : Set :=
  | TY_BOARD_STATE_DROPPED
  | TY_BOARD_STATE_MISSING
  | TY_BOARD_STATE_ONLINE.

#[global] Instance ty_board_state_eq_dec : EqDecision ty_board_state.
Proof. solve_decision. Defined.

Inductive ty_monitor_event : Set :=
  | TY_MONITOR_EVENT_ADDED
  | TY_MONITOR_EVENT_CHANGED
  | TY_MONITOR_EVENT_DISAPPEARED
  | TY_MONITOR_EVENT_DROPPED.

#[global] Instance ty_monitor_event_eq_dec : EqDecision ty_monitor_event.
Proof. solve_decision. Defined.

(** [struct ty_board] of [board_priv.h], as the monitor uses it.  The
    interface list holds the interfaces in list order; [cap2iface] holds the
    address of an interface per capability. *)
Record ty_board := {
  location : string;
  model : option ty_board_model;
  serial : Z;
  vid : Z;
  pid : Z;
  id : string;
  state : ty_board_state;
  interfaces : list ty_board_interface;
  cap2iface : list (option nat);
  capabilities : Z;
  missing_since : Z
}.

Definition set_vid_pid (v p : Z) (b : ty_board) : ty_board :=
  {| location := location b; model := model b; serial := serial b; vid := v; pid := p;
     id := id b; state := state b; interfaces := interfaces b; cap2iface := cap2iface b;
     capabilities := capabilities b; missing_since := missing_since b |}.
Definition set_model (m : option ty_board_model) (b : ty_board) : ty_board :=
  {| location := location b; model := m; serial := serial b; vid := vid b; pid := pid b;
     id := id b; state := state b; interfaces := interfaces b; cap2iface := cap2iface b;
     capabilities := capabilities b; missing_since := missing_since b |}.
Definition set_serial (s : Z) (b : ty_board) : ty_board :=
  {| location := location b; model := model b; serial := s; vid := vid b; pid := pid b;
     id := id b; state := state b; interfaces := interfaces b; cap2iface := cap2iface b;
     capabilities := capabilities b; missing_since := missing_since b |}.
Definition set_state (s : ty_board_state) (b : ty_board) : ty_board :=
  {| location := location b; model := model b; serial := serial b; vid := vid b; pid := pid b;
     id := id b; state := s; interfaces := interfaces b; cap2iface := cap2iface b;
     capabilities := capabilities b; missing_since := missing_since b |}.
Definition set_interfaces (l : list ty_board_interface) (c2i : list (option nat)) (caps : Z)
    (b : ty_board) : ty_board :=
  {| location := location b; model := model b; serial := serial b; vid := vid b; pid := pid b;
     id := id b; state := state b; interfaces := l; cap2iface := c2i;
     capabilities := caps; missing_since := missing_since b |}.
Definition set_missing_since (t : Z) (b : ty_board) : ty_board :=
  {| location := location b; model := model b; serial := serial b; vid := vid b; pid := pid b;
     id := id b; state := state b; interfaces := interfaces b; cap2iface := cap2iface b;
     capabilities := capabilities b; missing_since := t |}.

(** A registered callback; [udata] is part of the closure.  The callback is
    given the address of the board and the board as it is at the call. *)
Record callback := {
  cb_id : Z;
  cb_f : nat -> ty_board -> ty_monitor_event -> Z
}.

(** [struct ty_monitor].  [heap] holds the board objects by address, the two
    lists hold addresses; [monitor_interfaces] is the hash table
    [monitor->interfaces], kept as the list of its nodes, the most recently
    added first; [timer] is the timeout last given to [ty_timer_set]; [brk]
    is the next address handed out by [calloc]. *)
Record ty_monitor := {
  callbacks : list callback;
  callback_id : Z;
  callback_ret : ret;
  heap : gmap nat ty_board;
  boards : list nat;
  missing_boards : list nat;
  monitor_interfaces : list ty_board_interface;
  timer : option Z;
  brk : nat
}.

Definition with_callbacks (m : ty_monitor) (l : list callback) : ty_monitor :=
  {| callbacks := l; callback_id := callback_id m; callback_ret := callback_ret m;
     heap := heap m; boards := boards m; missing_boards := missing_boards m;
     monitor_interfaces := monitor_interfaces m; timer := timer m; brk := brk m |}.
Definition with_callback_id (m : ty_monitor) (n : Z) : ty_monitor :=
  {| callbacks := callbacks m; callback_id := n; callback_ret := callback_ret m;
     heap := heap m; boards := boards m; missing_boards := missing_boards m;
     monitor_interfaces := monitor_interfaces m; timer := timer m; brk := brk m |}.
Definition with_callback_ret (m : ty_monitor) (r : ret) : ty_monitor :=
  {| callbacks := callbacks m; callback_id := callback_id m; callback_ret := r;
     heap := heap m; boards := boards m; missing_boards := missing_boards m;
     monitor_interfaces := monitor_interfaces m; timer := timer m; brk := brk m |}.
Definition with_heap (m : ty_monitor) (h : gmap nat ty_board) : ty_monitor :=
  {| callbacks := callbacks m; callback_id := callback_id m; callback_ret := callback_ret m;
     heap := h; boards := boards m; missing_boards := missing_boards m;
     monitor_interfaces := monitor_interfaces m; timer := timer m; brk := brk m |}.
Definition with_boards (m : ty_monitor) (l : list nat) : ty_monitor :=
  {| callbacks := callbacks m; callback_id := callback_id m; callback_ret := callback_ret m;
     heap := heap m; boards := l; missing_boards := missing_boards m;
     monitor_interfaces := monitor_interfaces m; timer := timer m; brk := brk m |}.
Definition with_missing_boards (m : ty_monitor) (l : list nat) : ty_monitor :=
  {| callbacks := callbacks m; callback_id := callback_id m; callback_ret := callback_ret m;
     heap := heap m; boards := boards m; missing_boards := l;
     monitor_interfaces := monitor_interfaces m; timer := timer m; brk := brk m |}.
Definition with_monitor_interfaces (m : ty_monitor) (l : list ty_board_interface) : ty_monitor :=
  {| callbacks := callbacks m; callback_id := callback_id m; callback_ret := callback_ret m;
     heap := heap m; boards := boards m; missing_boards := missing_boards m;
     monitor_interfaces := l; timer := timer m; brk := brk m |}.
Definition with_timer (m : ty_monitor) (t : option Z) : ty_monitor :=
  {| callbacks := callbacks m; callback_id := callback_id m; callback_ret := callback_ret m;
     heap := heap m; boards := boards m; missing_boards := missing_boards m;
     monitor_interfaces := monitor_interfaces m; timer := t; brk := brk m |}.
Definition with_brk (m : ty_monitor) (n : nat) : ty_monitor :=
  {| callbacks := callbacks m; callback_id := callback_id m; callback_ret := callback_ret m;
     heap := heap m; boards := boards m; missing_boards := missing_boards m;
     monitor_interfaces := monitor_interfaces m; timer := timer m; brk := n |}.

(** The monitor as [ty_monitor_new] returns it. *)
Definition ty_monitor_new : ty_monitor :=
  {| callbacks := []; callback_id := 0; callback_ret := Ret 0; heap := ∅; boards := [];
     missing_boards := []; monitor_interfaces := []; timer := None; brk := 0 |}.

(** An assignment through a board pointer: [board->... = ...]. *)
Definition modify (m : ty_monitor) (p : nat) (f : ty_board -> ty_board) : ty_monitor :=
  with_heap m (alter f p (heap m)).

Definition DROP_BOARD_DELAY : Z := 15000.

(** Modelled from the spec: [ty_adjust_timeout] comes from [ty/system.h],
    which is not part of the sources; it is [max(0, start + T - now)] for a
    non-negative [T], computed as [adjust_timeout] of [board.c] does. *)
Definition ty_adjust_timeout (now timeout start : Z) : Z :=
  Board.adjust_timeout now timeout start.

(** Removal of a node from an intrusive list, by address. *)
Definition ty_list_remove (p : nat) (l : list nat) : list nat :=
  filter (fun q => q ≠ p) l.

Definition iface_list_remove (iface : ty_board_interface) (l : list ty_board_interface)
    : list ty_board_interface :=
  filter (fun i => if_addr i ≠ if_addr iface) l.

(** [ty_monitor_register_callback] *)
Definition ty_monitor_register_callback (m : ty_monitor)
    (f : nat -> ty_board -> ty_monitor_event -> Z) : ty_monitor * Z :=
  let cb := {| cb_id := callback_id m; cb_f := f |} in
  (with_callbacks (with_callback_id m (callback_id m + 1)) (callbacks m ++ [cb]), cb_id cb).

(** [ty_monitor_deregister_callback]: drops the first callback with this id. *)
Fixpoint drop_callback_id (n : Z) (l : list callback) : list callback :=
  match l with
  | [] => []
  | cb :: l => if cb_id cb =? n then l else cb :: drop_callback_id n l
  end.

Definition ty_monitor_deregister_callback (m : ty_monitor) (n : Z) : ty_monitor :=
  with_callbacks m (drop_callback_id n (callbacks m)).

(** The loop of [trigger_callbacks]: a negative return stops the walk, a
    positive one drops the callback. *)
Fixpoint run_callbacks (l : list callback) (p : nat) (b : ty_board) (ev : ty_monitor_event)
    : list callback * Z :=
  match l with
  | [] => ([], 0)
  | cb :: l =>
      let r := cb_f cb p b ev in
      if r <? 0 then (cb :: l, r)
      else
        let '(l, r') := run_callbacks l p b ev in
        (if r =? 0 then cb :: l else l, r')
  end.

(** [trigger_callbacks] *)
Definition trigger_callbacks (m : ty_monitor) (p : nat) (ev : ty_monitor_event)
    : ty_monitor * Z :=
  match heap m !! p with
  | Some b =>
      let '(l, r) := run_callbacks (callbacks m) p b ev in
      (with_callbacks m l, r)
  | None => (m, 0)
  end.

Definition empty_cap2iface : list (option nat) := replicate TY_BOARD_CAPABILITY_COUNT None.

(** The loop over [cap2iface] for one interface: [cap2iface[i] = iface] for
    every bit [i] of the interface's capabilities. *)
Definition record_cap2iface (iface : ty_board_interface) (c2i : list (option nat))
    : list (option nat) :=
  imap (fun i old =>
          if negb (Z.land (if_capabilities iface) (Z.shiftl 1 (Z.of_nat i)) =? 0)
          then Some (if_addr iface) else old) c2i.

(** What attaching [iface] does to the capability fields of a board. *)
Definition add_capabilities (acc : list (option nat) * Z) (iface : ty_board_interface)
    : list (option nat) * Z :=
  (record_cap2iface iface (fst acc), Z.lor (snd acc) (if_capabilities iface)).

(** The board [add_board] builds for an interface: [calloc] leaves the
    state at its zero value, the list of interfaces is empty. *)
Definition new_board (iface : ty_board_interface) : ty_board :=
  {| location := dev_location (if_dev iface);
     model := if_model iface;
     serial := if_serial iface;
     vid := dev_vid (if_dev iface);
     pid := dev_pid (if_dev iface);
     id := pretty (Z.to_N (if_serial iface)) +:+ "-"
           +:+ from_option family_name "" (if_model iface);
     state := TY_BOARD_STATE_DROPPED;
     interfaces := [];
     cap2iface := empty_cap2iface;
     capabilities := 0;
     missing_since := 0 |}.

(** [add_board]: allocates the board of the interface and appends it to
    [monitor->boards].  The allocation failures are not modelled. *)
Definition add_board (m : ty_monitor) (iface : ty_board_interface) : ty_monitor * nat :=
  let p := brk m in
  (with_boards (with_heap (with_brk m (S p)) (<[p := new_board iface]> (heap m)))
     (boards m ++ [p]), p).

(** [close_board] *)
Definition close_board (m : ty_monitor) (p : nat) : ty_monitor :=
  match heap m !! p with
  | None => m
  | Some b =>
      let ifaces := interfaces b in
      let m := modify m p (set_interfaces [] empty_cap2iface 0) in
      let m := modify m p (set_state TY_BOARD_STATE_MISSING) in
      let m := fst (trigger_callbacks m p TY_MONITOR_EVENT_DISAPPEARED) in
      with_monitor_interfaces m
        (fold_left (fun table iface => iface_list_remove iface table) ifaces
           (monitor_interfaces m))
  end.

(** [add_missing_board], with the reading of [ty_millis()] as [now]; the
    timer is taken to accept the timeout. *)
Definition add_missing_board (m : ty_monitor) (now : Z) (p : nat) : ty_monitor * ret :=
  let m := modify m p (set_missing_since now) in
  let m := with_missing_boards m (ty_list_remove p (missing_boards m) ++ [p]) in
  match head (missing_boards m) ≫= (fun q => heap m !! q) with
  | Some first =>
      (with_timer m (Some (ty_adjust_timeout now DROP_BOARD_DELAY (missing_since first))), Ret 0)
  | None => (m, Ret 0)
  end.

(** [drop_board] *)
Definition drop_board (m : ty_monitor) (p : nat) : ty_monitor :=
  let m := with_missing_boards m (ty_list_remove p (missing_boards m)) in
  let m := modify m p (set_state TY_BOARD_STATE_DROPPED) in
  let m := fst (trigger_callbacks m p TY_MONITOR_EVENT_DROPPED) in
  with_boards m (ty_list_remove p (boards m)).

(** [find_board] *)
Definition find_board (m : ty_monitor) (loc : string) : option nat :=
  find (fun p => match heap m !! p with
                 | Some b => bool_decide (location b = loc)
                 | None => false
                 end) (boards m).

(** Modelled from the spec: [struct ty_board_family] as [monitor.c] uses it
    is not part of the sources (section 9 lists the methods of a family).
    The monitor reads the [open_interface] member only: the routine that
    claims an interface, giving its status (0: not of this family, positive:
    claimed, or an error) and the interface as it leaves it. *)
Record ty_board_family := {
  fam_name : string;
  open_interface : ty_board_interface -> ret * ty_board_interface
}.

(** Modelled from the spec: section 4.1, step 4.  An interface is in
    bootloader mode when its device is a HID device with the usage page
    0xFF9C; the other interfaces are in running mode. *)
Definition bootloader_mode (dev : hs_device) : bool :=
  match dev_type dev with
  | HS_DEVICE_TYPE_HID => dev_hid_usage_page dev =? Teensy.TEENSY_USAGE_PAGE_BOOTLOADER
  | HS_DEVICE_TYPE_SERIAL => false
  end.

(** Modelled from the spec: the legacy (AVR) models are those of the upload
    protocol variants V1 and V2 (section 4.6, frame layout table). *)
Definition legacy_avr (m : option ty_board_model) : bool :=
  match m with
  | Some m => (halfkay_version m =? 1) || (halfkay_version m =? 2)
  | None => false
  end.

(** Modelled from the spec: section 4.2, the serial number of a classified
    interface.  Bootloader mode: the string is read in base 16, 100 stands
    for an unknown serial and a value below 10,000,000 is multiplied by 10
    (this is [parse_bootloader_serial] of the sources); running mode: the
    string is read in base 10; absent string: 12345 for a legacy bootloader
    interface, 0 otherwise. *)
Definition parse_serial (iface : ty_board_interface) : Z :=
  let dev := if_dev iface in
  match dev_serial_number_string dev with
  | Some s =>
      if bootloader_mode dev then Teensy.parse_bootloader_serial (Some s)
      else C.strtoull s 10
  | None =>
      if bootloader_mode dev && legacy_avr (if_model iface) then 12345 else 0
  end.

(** Modelled from the spec: section 4.2, a serial is identifying when it is
    neither 0, nor 12345, nor 2^32 - 1. *)
Definition identifying (serial : Z) : bool :=
  negb (serial =? 0) && negb (serial =? 12345) && negb (serial =? C.UINT32_MAX).

(** Modelled from the spec: the [open_interface] member of the Teensy family,
    which [open_new_interface] calls, is not part of the sources: the family
    of [board_teensy.c] has [load_interface] instead, and the
    [teensy_open_interface] found there only opens the device of an interface
    that exists already.  It is the interface classifier of section 4.1.
    Steps 1 to 4 are taken as [teensy_load_interface] of the sources has
    them, a rejected device giving 0 (the sources keep a HalfKay interface
    whose usage value is not in the table, with the unknown model, where the
    section rejects it).  The device of a claimed interface is
    then opened, which can fail (section 7: NOT_FOUND and ACCESS during
    classification).  Step 5 stores the serial number read as section 4.2
    says, over the one [open_new_interface] has put there, and an
    identifying serial gives the interface the UNIQUE capability. *)
Definition classify (iface : ty_board_interface) : ret * ty_board_interface :=
  let '(r, iface) := Teensy.teensy_load_interface iface in
  if r =? 0 then (Ret 0, iface)
  else
    match dev_open (if_dev iface) with
    | Some e => (Err e, iface)
    | None =>
        let serial := parse_serial iface in
        let iface := with_serial iface serial in
        (Ret r, if identifying serial then with_cap iface TY_BOARD_CAPABILITY_UNIQUE
                else iface)
    end.

(** Modelled from the spec: the family object that [monitor.c] links with is
    not part of the sources; it is named as in [board_teensy.c]. *)
Definition _ty_teensy_family : ty_board_family :=
  {| fam_name := "Teensy"; open_interface := classify |}.

(** Modelled from the spec: the array [ty_board_families] is not part of the
    sources; Teensy is the single family (section 9). *)
Definition ty_board_families : list ty_board_family := [_ty_teensy_family].

(** The loop of [open_new_interface] over the families: it stops at the
    first family answering something else than 0, and swallows
    [TY_ERROR_NOT_FOUND] and [TY_ERROR_ACCESS]. *)
Fixpoint open_families (fams : list ty_board_family) (iface : ty_board_interface)
    : ret * ty_board_interface :=
  match fams with
  | [] => (Ret 0, iface)
  | fam :: fams =>
      match open_interface fam iface with
      | (Err e, iface) =>
          (if bool_decide (e = TY_ERROR_NOT_FOUND) || bool_decide (e = TY_ERROR_ACCESS)
           then Ret 0 else Err e, iface)
      | (Ret r, iface) =>
          if r =? 0 then open_families fams iface else (Ret r, iface)
      end
  end.

(** [open_new_interface], the new interface being allocated at [addr]: the
    status, and the interface when the status is 1. *)
Definition open_new_interface (addr : nat) (dev : hs_device)
    : ret * option ty_board_interface :=
  let iface := new_interface addr dev in
  let iface :=
    match dev_serial_number_string dev with
    | Some s => with_serial iface (C.strtoull s 10)
    | None => iface
    end in
  match open_families ty_board_families iface with
  | (Ret r, iface) => if 0 <? r then (Ret 1, Some iface) else (Ret r, None)
  | (Err e, _) => (Err e, None)
  end.

(** [find_interface]: the first node of the table for this device. *)
Definition find_interface (m : ty_monitor) (dev : hs_device) : option ty_board_interface :=
  find (fun iface => bool_decide (dev_addr (if_dev iface) = dev_addr dev))
       (monitor_interfaces m).

(** [iface_is_compatible] *)
Definition iface_is_compatible (iface : ty_board_interface) (board : ty_board) : bool :=
  if ty_board_model_is_real (if_model iface) && ty_board_model_is_real (model board)
     && negb (bool_decide (if_model iface = model board)) then false
  else if negb (if_serial iface =? 0) && negb (serial board =? 0)
          && negb (if_serial iface =? serial board) then false
  else true.

(** The branch of [add_interface] for a board found at the location and
    compatible with the interface. *)
Definition update_board (m : ty_monitor) (p : nat) (iface : ty_board_interface)
    (dev : hs_device) : ty_monitor :=
  match heap m !! p with
  | None => m
  | Some b =>
      let m :=
        if negb (vid b =? dev_vid dev) || negb (pid b =? dev_pid dev) then
          let m :=
            if bool_decide (state b = TY_BOARD_STATE_ONLINE) then close_board m p else m in
          modify m p (set_vid_pid (dev_vid dev) (dev_pid dev))
        else m in
      let m :=
        if ty_board_model_is_real (if_model iface) then modify m p (set_model (if_model iface))
        else m in
      if negb (if_serial iface =? 0) then modify m p (set_serial (if_serial iface)) else m
  end.

(** The end of [add_interface]: the interface joins the board and the table,
    the board leaves the list of missing boards and is online. *)
Definition attach_interface (m : ty_monitor) (p : nat) (iface : ty_board_interface)
    : ty_monitor :=
  let iface := with_board iface p in
  let m :=
    modify m p (fun b =>
      let '(c2i, caps) := add_capabilities (cap2iface b, capabilities b) iface in
      set_interfaces (interfaces b ++ [iface]) c2i caps b) in
  let m := with_monitor_interfaces m (iface :: monitor_interfaces m) in
  let m := with_missing_boards m (ty_list_remove p (missing_boards m)) in
  modify m p (set_state TY_BOARD_STATE_ONLINE).

(** [add_interface] *)
Definition add_interface (m : ty_monitor) (dev : hs_device) : ty_monitor * ret :=
  match open_new_interface (brk m) dev with
  | (r, None) => (m, r)
  | (_, Some iface) =>
      let m := with_brk m (S (brk m)) in
      let board := find_board m (dev_location dev) in
      let '(m, board) :=
        match board with
        | Some p =>
            match heap m !! p with
            | Some b =>
                if negb (iface_is_compatible iface b) then
                  let m :=
                    if bool_decide (state b = TY_BOARD_STATE_ONLINE) then close_board m p
                    else m in
                  (drop_board m p, None)
                else (m, Some p)
            | None => (m, Some p)
            end
        | None => (m, None)
        end in
      let '(m, p, event) :=
        match board with
        | Some p => (update_board m p iface dev, p, TY_MONITOR_EVENT_CHANGED)
        | None => let '(m, p) := add_board m iface in (m, p, TY_MONITOR_EVENT_ADDED)
        end in
      let m := attach_interface m p iface in
      let '(m, r) := trigger_callbacks m p event in
      (m, Ret r)
  end.

(** The capability fields rebuilt from scratch by walking a list of
    interfaces, as [remove_interface] does. *)
Definition rebuild_capabilities (l : list ty_board_interface) : list (option nat) * Z :=
  fold_left add_capabilities l (empty_cap2iface, 0).

(** [remove_interface], with the reading of [ty_millis()] as [now]. *)
Definition remove_interface (m : ty_monitor) (now : Z) (dev : hs_device) : ty_monitor * ret :=
  match find_interface m dev with
  | None => (m, Ret 0)
  | Some iface =>
      match if_board iface with
      | None => (m, Ret 0)
      | Some p =>
          let m := with_monitor_interfaces m (iface_list_remove iface (monitor_interfaces m)) in
          let m :=
            modify m p (fun b =>
              let l := iface_list_remove iface (interfaces b) in
              let '(c2i, caps) := rebuild_capabilities l in
              set_interfaces l c2i caps b) in
          match interfaces <$> heap m !! p with
          | Some [] => add_missing_board (close_board m p) now p
          | _ =>
              let '(m, r) := trigger_callbacks m p TY_MONITOR_EVENT_CHANGED in
              (m, Ret r)
          end
      end
  end.

(** [device_callback], with the clock reading used if the device is gone. *)
Definition device_callback (m : ty_monitor) (now : Z) (dev : hs_device) : ty_monitor * Z :=
  let '(m, r) :=
    match dev_status dev with
    | HS_DEVICE_STATUS_ONLINE => add_interface m dev
    | HS_DEVICE_STATUS_DISCONNECTED => remove_interface m now dev
    end in
  (with_callback_ret m r, if bool_decide (r = Ret 0) then 0 else 1).

(** The first part of [ty_monitor_refresh], entered when [ty_timer_rearm]
    tells that the timer has expired: the walk over the missing boards, in
    list order, dropping the boards whose delay has run out and setting the
    timer for the first board whose delay has not. *)
Fixpoint drop_missing_boards (m : ty_monitor) (now : Z) (queue : list nat) : ty_monitor :=
  match queue with
  | [] => m
  | p :: queue =>
      match heap m !! p with
      | None => m
      | Some board =>
          let timeout := ty_adjust_timeout now DROP_BOARD_DELAY (missing_since board) in
          if negb (timeout =? 0) then with_timer m (Some timeout)
          else drop_missing_boards (drop_board m p) now queue
      end
  end.

Definition ty_monitor_refresh_timer (m : ty_monitor) (now : Z) : ty_monitor :=
  drop_missing_boards m now (missing_boards m).

(** [ty_monitor_list]: the calls made to [f], in order, and the return value. *)
Fixpoint list_boards (h : gmap nat ty_board) (l : list nat)
    (f : nat -> ty_board -> ty_monitor_event -> Z)
    : list (nat * ty_board * ty_monitor_event) * Z :=
  match l with
  | [] => ([], 0)
  | p :: l =>
      match h !! p with
      | Some board =>
          if bool_decide (state board = TY_BOARD_STATE_ONLINE) then
            let r := f p board TY_MONITOR_EVENT_ADDED in
            if r =? 0 then
              let '(calls, r) := list_boards h l f in
              ((p, board, TY_MONITOR_EVENT_ADDED) :: calls, r)
            else ([(p, board, TY_MONITOR_EVENT_ADDED)], r)
          else list_boards h l f
      | None => list_boards h l f
      end
  end.

Definition ty_monitor_list (m : ty_monitor) (f : nat -> ty_board -> ty_monitor_event -> Z)
    : list (nat * ty_board * ty_monitor_event) * Z :=
  list_boards (heap m) (boards m) f.

(** What reaches the monitor: a device notification from the hotplug source,
    handled by [device_callback], or the expiry of the drop timer, handled
    by the first part of [ty_monitor_refresh]; each with the reading of the
    clock at that moment. *)
Inductive op : Type :=
  | OpDevice (now : Z) (dev : hs_device)
  | OpTimer (now : Z).

Definition op_time (o : op) : Z :=
  match o with
  | OpDevice now _ => now
  | OpTimer now => now
  end.

Definition step (m : ty_monitor) (o : op) : ty_monitor :=
  match o with
  | OpDevice now dev => fst (device_callback m now dev)
  | OpTimer now => ty_monitor_refresh_timer m now
  end.

Definition run (m : ty_monitor) (ops : list op) : ty_monitor := fold_left step ops m.

End Monitor.

(** ** Vocabulary of the properties *)

(** *** Serial numbers *)

Definition hex_digit (c : ascii) : bool :=
  match C.digit_value c with
  | Some d => d <? 16
  | None => false
  end.

Fixpoint all_hex (s : string) : bool :=
  match s with
  | EmptyString => true
  | String c r => hex_digit c && all_hex r
  end.

(** The number a string of hexadecimal digits denotes. *)
Fixpoint hex_value (s : string) : Z :=
  match s with
  | EmptyString => 0
  | String c r => default 0 (C.digit_value c) * 16 ^ Z.of_nat (String.length r) + hex_value r
  end.






(** *** HalfKay reports, as the frame layout table describes them *)

(** [addr[lo+7:lo]] *)
Definition addr_bits (addr lo : Z) : Z := Z.land (Z.shiftr addr lo) 255.

Definition halfkay_header (version addr : Z) : list Z :=
  if version =? 1 then [0; addr_bits addr 0; addr_bits addr 8]
  else if version =? 2 then [0; addr_bits addr 8; addr_bits addr 16]
  else [0; addr_bits addr 0; addr_bits addr 8; addr_bits addr 16].

Definition halfkay_payload_offset (version : Z) : nat :=
  if (version =? 1) || (version =? 2) then 3%nat else 65%nat.

(** Header, zeros up to the payload offset, payload, zeros up to the total
    length [block_size + offset]. *)
Definition halfkay_layout (m : ty_board_model) (addr : Z) (data : list Z) : list Z :=
  let hdr := halfkay_header (halfkay_version m) addr in
  let off := halfkay_payload_offset (halfkay_version m) in
  hdr ++ replicate (off - length hdr) 0 ++ data
      ++ replicate (Z.to_nat (block_size m) - length data) 0.

(** *** Capabilities *)

(** The bitwise union of the capabilities of a list of interfaces. *)
Definition union_capabilities (l : list ty_board_interface) : Z :=
  foldr (fun iface acc => Z.lor (if_capabilities iface) acc) 0 l.

(** *** Devices used as concrete inputs *)

(** A HalfKay (bootloader) HID device with the given usage value and serial
    number string, plugged at "usb1". *)
Definition halfkay_device (addr : nat) (usage_value : Z) (s : option string) : hs_device :=
  {| dev_addr := addr; dev_status := HS_DEVICE_STATUS_ONLINE; dev_type := HS_DEVICE_TYPE_HID;
     dev_location := "usb1"; dev_vid := 0x16C0; dev_pid := 0x478;
     dev_serial_number_string := s; dev_hid_usage_page := 0xFF9C;
     dev_hid_usage := usage_value; dev_open := None |}.

(** A serial (CDC) device at a location, with its serial number string. *)
Definition serial_device (addr : nat) (st : hs_device_status) (loc : string) (s : string)
    : hs_device :=
  {| dev_addr := addr; dev_status := st; dev_type := HS_DEVICE_TYPE_SERIAL;
     dev_location := loc; dev_vid := 0x16C0; dev_pid := 0x483;
     dev_serial_number_string := Some s; dev_hid_usage_page := 0; dev_hid_usage := 0;
     dev_open := None |}.

(** The interface the monitor creates at address 7 for a Teensy 3.0 in
    bootloader mode whose serial number string is "00BC614E": UPLOAD, RESET
    and UNIQUE, with the serial 0xBC614E = 12345678. *)
Definition halfkay_30_interface : ty_board_interface :=
  {| if_addr := 7; if_dev := halfkay_device 1 0x1D (Some "00BC614E");
     if_name := Some "HalfKay"; if_model := Some Teensy.teensy_30_model;
     if_serial := 12345678; if_capabilities := 76; if_board := None |}.

(** A world in which the device answers [HS_ERROR_IO] to every write. *)
Definition stalled_world : Teensy.world :=
  {| Teensy.millis := 1000; Teensy.experimental_boards := false;
     Teensy.hid_answers := fun _ => Teensy.HsErr Teensy.HS_ERROR_IO;
     Teensy.hid_written := [] |}.

(** *** Firmware images used as concrete inputs *)

Definition teensy_30_magic : list Z := [0x38; 0x80; 0x04; 0x40; 0x82; 0x3F; 0x04; 0x00].
Definition teensy_k64_magic : list Z := [0x01; 0x00; 0x00; 0x2B; 0x88; 0xED; 0x00; 0xE0].

(** The image with [bytes] written at offset [off]. *)
Definition place (off : nat) (bytes : list Z) (img : list Z) : list Z :=
  take off img ++ bytes ++ drop (off + length bytes) img.

Definition zeros (n : nat) : list Z := replicate n 0.

(** A window of an image matches a signature of the table. *)
Definition signature_at (img : list Z) (i : nat) : Prop :=
  exists sig, In sig Teensy.signatures /\ Teensy.value8 img i = Teensy.magic sig.

(** *** Boards of the manager used as concrete inputs *)

(** A Teensy 3.0 in bootloader mode: UPLOAD, RESET and IDENTIFY. *)
Definition bootloader_board : Board.ty_board :=
  {| Board.state := Board.TY_BOARD_STATE_ONLINE;
     Board.mode := Some {| Board.mode_name := "bootloader";
                           Board.mode_capabilities :=
                             cap_word [TY_BOARD_CAPABILITY_UPLOAD; TY_BOARD_CAPABILITY_RESET;
                                       TY_BOARD_CAPABILITY_IDENTIFY] |};
     Board.model := Some Teensy.teensy_30_model;
     Board.serial := 0 |}.

(** A Teensy 3.0 whose mode offers UPLOAD and RESET but not IDENTIFY: its
    model has been carried over from an earlier mode. *)
Definition carried_over_board : Board.ty_board :=
  {| Board.state := Board.TY_BOARD_STATE_ONLINE;
     Board.mode := Some {| Board.mode_name := "bootloader";
                           Board.mode_capabilities :=
                             cap_word [TY_BOARD_CAPABILITY_UPLOAD; TY_BOARD_CAPABILITY_RESET] |};
     Board.model := Some Teensy.teensy_30_model;
     Board.serial := 0 |}.

(** An upload routine that always succeeds. *)
Definition upload_ok (b : Board.ty_board) (f : ty_firmware) (flags : Z) : ret := Ret 0.

(** *** Listing *)

(** The calls [ty_monitor_list] owes: one per online board of
    [monitor->boards], in list order, with the event ADDED. *)
Definition online_boards (m : Monitor.ty_monitor)
    : list (nat * Monitor.ty_board * Monitor.ty_monitor_event) :=
  omap (fun p =>
          b ← Monitor.heap m !! p;
          if bool_decide (Monitor.state b = Monitor.TY_BOARD_STATE_ONLINE)
          then Some (p, b, Monitor.TY_MONITOR_EVENT_ADDED) else None)
       (Monitor.boards m).

(** *** The monitor: what the operations do to one board *)

(** The fields of a board after [close_board]. *)
Definition closed (b : Monitor.ty_board) : Monitor.ty_board :=
  Monitor.set_state Monitor.TY_BOARD_STATE_MISSING
    (Monitor.set_interfaces [] Monitor.empty_cap2iface 0 b).

(** The fields of the board at [p] after the interface has joined it. *)
Definition attached (p : nat) (iface : ty_board_interface) (b : Monitor.ty_board)
    : Monitor.ty_board :=
  Monitor.set_state Monitor.TY_BOARD_STATE_ONLINE
    (let '(c2i, caps) :=
       Monitor.add_capabilities (Monitor.cap2iface b, Monitor.capabilities b)
         (with_board iface p) in
     Monitor.set_interfaces (Monitor.interfaces b ++ [with_board iface p]) c2i caps b).

(** The fields of a board found compatible with a new interface, before the
    interface joins it. *)
Definition updated (iface : ty_board_interface) (dev : hs_device) (b : Monitor.ty_board)
    : Monitor.ty_board :=
  let b1 :=
    if negb (Monitor.vid b =? dev_vid dev) || negb (Monitor.pid b =? dev_pid dev) then
      Monitor.set_vid_pid (dev_vid dev) (dev_pid dev)
        (if bool_decide (Monitor.state b = Monitor.TY_BOARD_STATE_ONLINE) then closed b else b)
    else b in
  let b2 :=
    if ty_board_model_is_real (if_model iface) then Monitor.set_model (if_model iface) b1
    else b1 in
  if negb (if_serial iface =? 0) then Monitor.set_serial (if_serial iface) b2 else b2.

(** The fields of a board found incompatible with a new interface: closed
    if it was online, then dropped. *)
Definition discarded (b : Monitor.ty_board) : Monitor.ty_board :=
  Monitor.set_state Monitor.TY_BOARD_STATE_DROPPED
    (if bool_decide (Monitor.state b = Monitor.TY_BOARD_STATE_ONLINE) then closed b else b).

(** The fields of a board after one of its interfaces has left it. *)
Definition detached (iface : ty_board_interface) (b : Monitor.ty_board) : Monitor.ty_board :=
  let l := Monitor.iface_list_remove iface (Monitor.interfaces b) in
  let '(c2i, caps) := Monitor.rebuild_capabilities l in
  Monitor.set_interfaces l c2i caps b.

(** The capabilities of a board are the union of those of its interfaces. *)
Definition capabilities_united (b : Monitor.ty_board) : Prop :=
  Monitor.capabilities b = union_capabilities (Monitor.interfaces b).

(** A board is in order: its capabilities are united, and it has no
    interface unless it is online. *)
Definition board_ok (b : Monitor.ty_board) : Prop :=
  capabilities_united b
  /\ (Monitor.state b <> Monitor.TY_BOARD_STATE_ONLINE -> Monitor.interfaces b = []).

(** What holds of the monitor between two operations: every board is in
    order, and the boards of the list of missing boards are missing. *)
Definition monitor_inv (m : Monitor.ty_monitor) : Prop :=
  (forall p b, Monitor.heap m !! p = Some b -> board_ok b)
  /\ (forall p, p ∈ Monitor.missing_boards m ->
       exists b, Monitor.heap m !! p = Some b
                 /\ Monitor.state b = Monitor.TY_BOARD_STATE_MISSING).

(** *** The monitor: traces *)

(** The board at address [p] is missing, with no interface. *)
Definition absent (m : Monitor.ty_monitor) (p : nat) : Prop :=
  exists b, Monitor.heap m !! p = Some b
            /\ Monitor.state b = Monitor.TY_BOARD_STATE_MISSING
            /\ Monitor.interfaces b = [].

(** The board at address [p] has been dropped. *)
Definition dropped (m : Monitor.ty_monitor) (p : nat) : Prop :=
  exists b, Monitor.heap m !! p = Some b
            /\ Monitor.state b = Monitor.TY_BOARD_STATE_DROPPED.

(** The clock readings of a trace never go back, and stay far from the end
    of the 64-bit range. *)
Definition well_timed (ops : list Monitor.op) : Prop :=
  Sorted Z.le (map Monitor.op_time ops)
  /\ Forall (fun o => 0 <= Monitor.op_time o < 2 ^ 63) ops.

(** The board at [p] has been absent without interruption since the removal
    [OpDevice t dev] that follows [pre], throughout [mid]. *)
Definition absent_since (pre : list Monitor.op) (t : Z) (dev : hs_device)
    (mid : list Monitor.op) (p : nat) : Prop :=
  dev_status dev = HS_DEVICE_STATUS_DISCONNECTED
  /\ forall k, (k <= length mid)%nat ->
       absent (Monitor.run Monitor.ty_monitor_new
                 (pre ++ Monitor.OpDevice t dev :: take k mid)) p.

(** The drop rule as the specification words it: a board is dropped by
    operation [o] after the trace [ops] only if it has been absent without
    interruption for [DROP_BOARD_DELAY] ms at least. *)
Definition dropped_only_after_delay (ops : list Monitor.op) (o : Monitor.op) (p : nat) : Prop :=
  let m := Monitor.run Monitor.ty_monitor_new ops in
  ~ dropped m p -> dropped (Monitor.step m o) p ->
  exists pre t dev mid,
    ops = pre ++ Monitor.OpDevice t dev :: mid
    /\ t + Monitor.DROP_BOARD_DELAY <= Monitor.op_time o
    /\ absent_since pre t dev mid p.

(** *** Traces used as concrete inputs *)

(** Two serial devices seen at "usb1", with the serial numbers 100 and 200. *)
Definition conflict_trace : list Monitor.op :=
  [ Monitor.OpDevice 0 (serial_device 1 HS_DEVICE_STATUS_ONLINE "usb1" "100") ].

Definition conflict_op : Monitor.op :=
  Monitor.OpDevice 0 (serial_device 2 HS_DEVICE_STATUS_ONLINE "usb1" "200").

(** A serial device seen at "usb1" and gone 5 ms later; the timer fires
    15000 ms after that. *)
Definition vanish_trace : list Monitor.op :=
  [ Monitor.OpDevice 0 (serial_device 1 HS_DEVICE_STATUS_ONLINE "usb1" "100");
    Monitor.OpDevice 5 (serial_device 1 HS_DEVICE_STATUS_DISCONNECTED "usb1" "100") ].

(** Two serial devices of one board at "usb1", and a board at "usb2" that
    has gone missing. *)
Definition two_interfaces_trace : list Monitor.op :=
  [ Monitor.OpDevice 0 (serial_device 1 HS_DEVICE_STATUS_ONLINE "usb1" "100");
    Monitor.OpDevice 1 (serial_device 2 HS_DEVICE_STATUS_ONLINE "usb1" "100");
    Monitor.OpDevice 2 (serial_device 3 HS_DEVICE_STATUS_ONLINE "usb2" "300");
    Monitor.OpDevice 3 (serial_device 3 HS_DEVICE_STATUS_DISCONNECTED "usb2" "300") ].

(** *** Firmware identification, as a function of the matches *)

(** The signatures met by the search over the [n] first windows of an image,
    in the order the two loops meet them. *)
Definition matched_signatures (img : list Z) (n : nat) : list Teensy.firmware_signature :=
  flat_map (fun i => filter (fun sig => Teensy.value8 img i = Teensy.magic sig)
                            Teensy.signatures)
           (seq 0 n).

(** The highest priority among signatures (0 when there is none). *)
Definition top_priority (ms : list Teensy.firmware_signature) : Z :=
  foldr (fun sig acc => Z.max (Teensy.priority sig) acc) 0 ms.

(** The models of the signatures of highest priority, in order, as many as
    the output array holds. *)
Definition best_models (max : nat) (ms : list Teensy.firmware_signature)
    : list ty_board_model :=
  take max (map Teensy.sig_model
              (filter (fun sig => Teensy.priority sig = top_priority ms) ms)).

(** One pass of the inner loop for a signature whose magic is at the window. *)
Definition guess_match (max : nat) (st : Teensy.guess_state)
    (sig : Teensy.firmware_signature) : Teensy.guess_state :=
  Teensy.guess_signature (Teensy.magic sig) max st sig.

(** *** Firmware identification, window by window *)

(** The search of [teensy_guess_models] over the [n] first windows of an
    image, reading each window at the head of what is left of the image. *)
Fixpoint guess_windows (max : nat) (img : list Z) (n : nat) (st : Teensy.guess_state)
    : Teensy.guess_state :=
  match n with
  | O => st
  | S n =>
      guess_windows max (tail img) n
        (fold_left (Teensy.guess_signature (Teensy.value8 img 0) max) Teensy.signatures st)
  end.


(** * Properties *)

(** ** [strtoull] *)

Lemma digit_value_nonneg c d : C.digit_value c = Some d -> 0 <= d.
Proof.
  unfold C.digit_value. intros H.
  repeat case_match; simplify_eq; lia.
Qed.

Lemma digits_range base s : forall acc ovf,
  0 < base -> 0 <= acc <= C.ULLONG_MAX ->
  0 <= fst (C.digits base s acc ovf) <= C.ULLONG_MAX.
Proof.
  induction s as [|c s IH]; intros acc ovf Hb Hacc; simpl; [lia|].
  destruct (C.digit_value c) as [d|] eqn:Hd; simpl; [|lia].
  apply digit_value_nonneg in Hd.
  destruct (d <? base) eqn:Hlt; simpl; [|lia].
  destruct (ovf || (C.ULLONG_MAX <? acc * base + d)) eqn:Ho.
  - apply IH; [lia|]. unfold C.ULLONG_MAX. lia.
  - apply orb_false_iff in Ho as [_ Ho]. apply Z.ltb_ge in Ho.
    apply IH; [lia|]. nia.
Qed.

Lemma prefix_base_pos base s : 0 < base -> 0 < fst (C.prefix base s).
Proof.
  intros Hb. unfold C.prefix.
  repeat case_match; simpl; lia.
Qed.

(** The result of [strtoull] is a value of the unsigned 64-bit type. *)
Lemma strtoull_range s base : 0 < base -> 0 <= C.strtoull s base <= C.ULLONG_MAX.
Proof.
  intros Hb. unfold C.strtoull.
  destruct (C.sign (C.skip_space s)) as [neg s1].
  pose proof (prefix_base_pos base s1 Hb) as Hp.
  destruct (C.prefix base s1) as [b s2]. simpl in Hp.
  pose proof (digits_range b s2 0 false Hp) as Hd.
  destruct (C.digits b s2 0 false) as [v ovf]. simpl in Hd.
  assert (0 <= v <= C.ULLONG_MAX) by (apply Hd; unfold C.ULLONG_MAX; lia).
  destruct ovf; [unfold C.ULLONG_MAX; lia|].
  destruct neg; [|lia].
  unfold C.u64, C.ULLONG_MAX.
  pose proof (Z.mod_pos_bound (- v) (2 ^ 64)). lia.
Qed.

Lemma hex_value_nonneg s : 0 <= hex_value s.
Proof.
  induction s as [|c s IH]; simpl; [lia|].
  destruct (C.digit_value c) as [d|] eqn:Hd; simpl; [|lia].
  apply digit_value_nonneg in Hd.
  assert (0 <= 16 ^ Z.of_nat (String.length s)) by (apply Z.pow_nonneg; lia). nia.
Qed.

Lemma digits_hex s : forall acc,
  all_hex s = true -> 0 <= acc ->
  acc * 16 ^ Z.of_nat (String.length s) + hex_value s <= C.ULLONG_MAX ->
  C.digits 16 s acc false = (acc * 16 ^ Z.of_nat (String.length s) + hex_value s, false).
Proof.
  induction s as [|c s IH]; intros acc Hall Hacc Hle.
  - simpl. f_equal. lia.
  - cbn [all_hex] in Hall. apply andb_true_iff in Hall as [Hc Hall].
    unfold hex_digit in Hc.
    cbn [C.digits hex_value String.length] in *.
    destruct (C.digit_value c) as [d|] eqn:Hd; [|discriminate].
    rewrite Hc. simpl default in *.
    apply digit_value_nonneg in Hd.
    rewrite Nat2Z.inj_succ, Z.pow_succ_r in Hle |- * by lia.
    pose proof (hex_value_nonneg s) as Hv.
    assert (Hp : 1 <= 16 ^ Z.of_nat (String.length s)).
    { pose proof (Z.pow_pos_nonneg 16 (Z.of_nat (String.length s))). lia. }
    assert (Hs : acc * 16 + d <= C.ULLONG_MAX).
    { assert ((acc * 16 + d) * 1 <= (acc * 16 + d) * 16 ^ Z.of_nat (String.length s))
        by (apply Z.mul_le_mono_nonneg_l; lia).
      lia. }
    apply Z.ltb_ge in Hs. cbn [orb]. rewrite Hs.
    rewrite IH; [f_equal; lia|done|lia|lia].
Qed.

Lemma hex_digit_plain c :
  hex_digit c = true ->
  C.isspace c = false /\ (C.code c =? 45) = false /\ (C.code c =? 43) = false
  /\ C.is_x c = false.
Proof.
  unfold hex_digit, C.digit_value, C.isspace, C.is_x.
  generalize (C.code c). intros n H.
  repeat match type of H with
         | context [?a <=? ?b] => destruct (Z.leb_spec a b); cbn [andb orb] in H
         | context [?a <? ?b] => destruct (Z.ltb_spec a b); cbn [andb orb] in H
         end; try discriminate;
  repeat split;
  repeat match goal with
         | |- context [?a <=? ?b] => destruct (Z.leb_spec a b)
         | |- context [?a =? ?b] => destruct (Z.eqb_spec a b)
         end; cbn [andb orb]; try reflexivity; lia.
Qed.

(** In base 16, a string of hexadecimal digits is read as the number it
    denotes (as long as the number fits the type). *)
Lemma strtoull_hex s :
  all_hex s = true -> hex_value s <= C.ULLONG_MAX -> C.strtoull s 16 = hex_value s.
Proof.
  intros Hall Hle. unfold C.strtoull.
  assert (Hskip : C.sign (C.skip_space s) = (false, s)).
  { destruct s as [|c r]; [reflexivity|]. cbn [all_hex] in Hall.
    apply andb_true_iff in Hall as [Hc _].
    apply hex_digit_plain in Hc as (Hsp & Hm & Hp & _).
    cbn [C.skip_space]. rewrite Hsp. cbn [C.sign]. by rewrite Hm, Hp. }
  rewrite Hskip.
  assert (Hpre : C.prefix 16 s = (16, s)).
  { destruct s as [|c [|x r]]; cbn [C.prefix]; try reflexivity.
    - by rewrite andb_false_r.
    - cbn [all_hex] in Hall. apply andb_true_iff in Hall as [_ Hall].
      apply andb_true_iff in Hall as [Hx _].
      apply hex_digit_plain in Hx as (_ & _ & _ & Hx).
      rewrite Hx. rewrite andb_false_r. cbn [andb]. rewrite andb_false_r. reflexivity. }
  rewrite Hpre, digits_hex; [f_equal; lia|done|lia|lia].
Qed.

(** ** Serial numbers *)

(** C7: the bootloader parser reads the string in base 16 (a string of
    hexadecimal digits is read as the number it denotes); 100 gives 0, a
    value below 10,000,000 is multiplied by 10, another value is kept, and an
    absent string gives 12345.  "00000ABC" gives 27480 and "00000064" gives 0. *)
Theorem parse_bootloader_serial_spec (s : string) :
  Teensy.parse_bootloader_serial (Some s)
  = (let v := C.strtoull s 16 in
     if v =? 100 then 0 else if v <? 10000000 then v * 10 else v)
  /\ (all_hex s = true -> hex_value s <= C.ULLONG_MAX ->
      Teensy.parse_bootloader_serial (Some s)
      = (let v := hex_value s in
         if v =? 100 then 0 else if v <? 10000000 then v * 10 else v))
  /\ Teensy.parse_bootloader_serial None = 12345
  /\ hex_value "00000ABC" = 2748
  /\ Teensy.parse_bootloader_serial (Some "00000ABC"%string) = 27480
  /\ Teensy.parse_bootloader_serial (Some "00000064"%string) = 0.
Proof.
  assert (Hgen : Teensy.parse_bootloader_serial (Some s)
                 = (let v := C.strtoull s 16 in
                    if v =? 100 then 0 else if v <? 10000000 then v * 10 else v)).
  { unfold Teensy.parse_bootloader_serial. cbn zeta.
    pose proof (strtoull_range s 16 ltac:(lia)) as Hr.
    destruct (C.strtoull s 16 =? 100); [reflexivity|].
    destruct (C.strtoull s 16 <? 10000000) eqn:Hlt; [|reflexivity].
    apply Z.ltb_lt in Hlt. unfold C.u64. apply Z.mod_small. lia. }
  split; [exact Hgen|]. split.
  { intros Hall Hle. rewrite Hgen. by rewrite strtoull_hex. }
  split; [reflexivity|]. split; [|split]; vm_compute; reflexivity.
Qed.

Lemma parse_bootloader_serial_spec_witness :
  Teensy.parse_bootloader_serial (Some "00BC614E"%string)
  = (let v := hex_value "00BC614E" in
     if v =? 100 then 0 else if v <? 10000000 then v * 10 else v).
Proof.
  apply (parse_bootloader_serial_spec "00BC614E").
  - reflexivity.
  - vm_compute. discriminate.
Defined.

(** C8, as stated, fails: neither parser gives 12345 for "0012345". *)
Lemma serial_0012345_is_not_12345 :
  Teensy.parse_bootloader_serial (Some "0012345"%string) <> 12345
  /\ Board.parse_serial_number (Some "0012345"%string) <> 12345.
Proof. split; vm_compute; discriminate. Qed.

(** C8, amended: "0012345" is read in base 16 as 0x12345 = 74565 (base 8
    would give 5349), which is below 10,000,000 and so multiplied by 10: both
    parsers give 745650. *)
Theorem serial_0012345_hex :
  C.strtoull "0012345" 16 = 74565
  /\ C.strtoull "0012345" 8 = 5349
  /\ Teensy.parse_bootloader_serial (Some "0012345"%string) = 745650
  /\ Board.parse_serial_number (Some "0012345"%string) = 745650.
Proof. repeat split; vm_compute; reflexivity. Qed.

(** ** The interface classifier *)

Lemma identify_model_found u m :
  Teensy.identify_model u = Some m -> In m Teensy.teensy_models /\ usage m = u.
Proof.
  unfold Teensy.identify_model. intros H.
  apply find_some in H as [Hin Hu]. split; [done|]. by apply Z.eqb_eq.
Qed.

(** The usage values of the table are pairwise distinct, so that a model of
    the table is the one found for its usage value. *)
Lemma identify_model_complete m :
  In m Teensy.teensy_models -> Teensy.identify_model (usage m) = Some m.
Proof.
  unfold Teensy.teensy_models. cbn [In]. intros H.
  repeat (destruct H as [<-|H]; [reflexivity|]). destruct H.
Qed.

(** No model is found exactly when no model of the table has the usage
    value. *)
Lemma identify_model_none u :
  Teensy.identify_model u = None
  <-> forall m, In m Teensy.teensy_models -> usage m <> u.
Proof.
  unfold Teensy.identify_model. split.
  - intros H m Hin Hu. apply (find_none _ _ H) in Hin. cbn in Hin.
    apply Z.eqb_neq in Hin. done.
  - intros H. destruct (find _ _) as [m|] eqn:Hf; [|reflexivity].
    apply find_some in Hf as [Hin Hu]. apply Z.eqb_eq in Hu.
    exfalso. by apply (H m).
Qed.

Lemma cap_word_upload_reset c :
  Z.testbit (cap_word [TY_BOARD_CAPABILITY_UPLOAD; TY_BOARD_CAPABILITY_RESET]) (cap_index c)
  = bool_decide (c = TY_BOARD_CAPABILITY_UPLOAD \/ c = TY_BOARD_CAPABILITY_RESET).
Proof.
  destruct c; vm_compute; reflexivity.
Qed.

(** C6, as stated, fails: a HalfKay device whose usage value (0x99) is not in
    the table is not rejected; the classifier answers 1 and leaves an
    interface named "HalfKay" with the unknown model and no capability. *)
Lemma unknown_usage_is_not_rejected :
  let dev := halfkay_device 0 0x99 None in
  Teensy.identify_model (dev_hid_usage dev) = None
  /\ Teensy.teensy_load_interface (new_interface 0 dev)
     = (1, {| if_addr := 0%nat; if_dev := dev; if_name := Some "HalfKay"%string;
              if_model := Some Teensy.teensy_unknown_model; if_serial := 0;
              if_capabilities := 0; if_board := None |})
  /\ fst (Teensy.teensy_load_interface (new_interface 0 dev)) <> 0.
Proof.
  cbn zeta. split; [|split]; [vm_compute; reflexivity..|vm_compute; discriminate].
Qed.

(** C6, amended: a HalfKay device (VID 0x16C0, accepted PID, HID, usage page
    0xFF9C) is always accepted, with the name "HalfKay".  When its usage
    value is the one of a model of the table, the interface gets that model
    and exactly the capabilities UPLOAD and RESET; when no model of the table
    has it, the interface gets the unknown model and no capability. *)
Theorem halfkay_interface_classified (iface : ty_board_interface) :
  dev_vid (if_dev iface) = Teensy.TEENSY_VID ->
  Teensy.accepted_pid (dev_pid (if_dev iface)) = true ->
  dev_type (if_dev iface) = HS_DEVICE_TYPE_HID ->
  dev_hid_usage_page (if_dev iface) = Teensy.TEENSY_USAGE_PAGE_BOOTLOADER ->
  if_capabilities iface = 0 ->
  exists iface',
    Teensy.teensy_load_interface iface = (1, iface')
    /\ if_name iface' = Some "HalfKay"%string
    /\ (forall m, In m Teensy.teensy_models -> usage m = dev_hid_usage (if_dev iface) ->
          if_model iface' = Some m
          /\ if_capabilities iface'
             = cap_word [TY_BOARD_CAPABILITY_UPLOAD; TY_BOARD_CAPABILITY_RESET]
          /\ forall c, Z.testbit (if_capabilities iface') (cap_index c)
                       = bool_decide (c = TY_BOARD_CAPABILITY_UPLOAD
                                      \/ c = TY_BOARD_CAPABILITY_RESET))
    /\ ((forall m, In m Teensy.teensy_models -> usage m <> dev_hid_usage (if_dev iface)) ->
          if_model iface' = Some Teensy.teensy_unknown_model
          /\ if_capabilities iface' = 0).
Proof.
  intros Hvid Hpid Hty Hpage Hcaps.
  unfold Teensy.teensy_load_interface.
  rewrite Hvid, Hpid, Hty, Hpage. cbn [negb Z.eqb].
  rewrite Z.eqb_refl. cbn [negb].
  destruct (Teensy.identify_model (dev_hid_usage (if_dev iface))) as [m|] eqn:Hid.
  - eexists. split; [reflexivity|]. cbn. rewrite Hcaps.
    split; [reflexivity|]. split.
    + intros m' Hin Hu. rewrite <- Hu, identify_model_complete in Hid by done.
      injection Hid as <-.
      split; [reflexivity|]. split; [reflexivity|].
      intros c. apply cap_word_upload_reset.
    + intros Hnone. apply identify_model_none in Hnone. congruence.
  - eexists. split; [reflexivity|]. cbn.
    split; [reflexivity|]. split; [|done].
    intros m Hin Hu. rewrite <- Hu, identify_model_complete in Hid by done.
    discriminate.
Qed.

Lemma halfkay_interface_classified_witness :
  exists iface',
    Teensy.teensy_load_interface (new_interface 0 (halfkay_device 0 0x23 None)) = (1, iface')
    /\ if_model iface' = Some Teensy.teensy_k64_model
    /\ if_capabilities iface' = 12.
Proof.
  destruct (halfkay_interface_classified (new_interface 0 (halfkay_device 0 0x23 None)))
    as (iface' & Hload & _ & Hfound & _); try reflexivity.
  exists iface'. split; [exact Hload|].
  destruct (Hfound Teensy.teensy_k64_model) as (Hm & Hc & _).
  - cbn. tauto.
  - reflexivity.
  - split; [exact Hm|]. rewrite Hc. reflexivity.
Defined.

(** The classifier of the sources leaves the serial, the device and the
    board of the interface as they are. *)
Lemma teensy_load_interface_keeps iface :
  let iface' := snd (Teensy.teensy_load_interface iface) in
  if_serial iface' = if_serial iface
  /\ if_addr iface' = if_addr iface
  /\ if_dev iface' = if_dev iface
  /\ if_board iface' = if_board iface.
Proof.
  unfold Teensy.teensy_load_interface.
  repeat case_match; cbn; repeat split; reflexivity.
Qed.

(** ** HalfKay reports *)

Lemma memcpy_layout (hdr data : list Z) (off blk : nat) :
  (length hdr <= off)%nat -> (length data <= blk)%nat ->
  (off + blk <= Teensy.buf_size)%nat ->
  take (blk + off)
       (Teensy.memcpy (hdr ++ replicate (Teensy.buf_size - length hdr) 0) off data)
  = hdr ++ replicate (off - length hdr) 0 ++ data ++ replicate (blk - length data) 0.
Proof.
  intros Hh Hd Hb. unfold Teensy.memcpy.
  set (room := (Teensy.buf_size - length hdr)%nat).
  assert (Htake : take off (hdr ++ replicate room 0) = hdr ++ replicate (off - length hdr) 0).
  { rewrite take_app_ge by lia. rewrite take_replicate. do 2 f_equal. lia. }
  assert (Hdrop : drop (off + length data) (hdr ++ replicate room 0)
                  = replicate (Teensy.buf_size - off - length data) 0).
  { rewrite drop_app_ge by lia. rewrite drop_replicate. f_equal. lia. }
  rewrite Htake, Hdrop.
  rewrite (app_assoc _ data).
  rewrite take_app_ge; rewrite !length_app, !length_replicate; [|lia].
  rewrite take_replicate. rewrite <- !app_assoc.
  do 3 f_equal. f_equal. lia.
Qed.

Lemma halfkay_frame_layout (m : ty_board_model) (addr : Z) (data : list Z) :
  halfkay_version m = 1 \/ halfkay_version m = 2 \/ halfkay_version m = 3 ->
  0 <= block_size m -> block_size m + 65 < 2048 ->
  Z.of_nat (length data) <= block_size m ->
  Teensy.halfkay_frame m addr data = Some (halfkay_layout m addr data).
Proof.
  intros Hv Hb0 Hb Hd. unfold Teensy.halfkay_frame, halfkay_layout.
  assert (Hlen : (length data <? Teensy.buf_size - 65)%nat = true).
  { apply Nat.ltb_lt. unfold Teensy.buf_size. lia. }
  rewrite Hlen. cbn [negb].
  destruct Hv as [-> | [-> | ->]]; cbn [Z.eqb Pos.eqb];
    unfold halfkay_header, halfkay_payload_offset, addr_bits; cbn [Z.eqb Pos.eqb orb];
    rewrite ?Z.shiftr_0_r; f_equal.
  - replace (Z.to_nat (block_size m + 3)) with (Z.to_nat (block_size m) + 3)%nat by lia.
    rewrite <- (memcpy_layout [0; Z.land addr 255; Z.land (Z.shiftr addr 8) 255] data 3
                  (Z.to_nat (block_size m)));
      [reflexivity | cbn; lia | lia | unfold Teensy.buf_size; lia].
  - replace (Z.to_nat (block_size m + 3)) with (Z.to_nat (block_size m) + 3)%nat by lia.
    rewrite <- (memcpy_layout
                  [0; Z.land (Z.shiftr addr 8) 255; Z.land (Z.shiftr addr 16) 255] data 3
                  (Z.to_nat (block_size m)));
      [reflexivity | cbn; lia | lia | unfold Teensy.buf_size; lia].
  - replace (Z.to_nat (block_size m + 65)) with (Z.to_nat (block_size m) + 65)%nat by lia.
    rewrite <- (memcpy_layout
                  [0; Z.land addr 255; Z.land (Z.shiftr addr 8) 255;
                   Z.land (Z.shiftr addr 16) 255] data 65
                  (Z.to_nat (block_size m)));
      [reflexivity | cbn; lia | lia | unfold Teensy.buf_size; lia].
Qed.

Lemma halfkay_header_length v addr :
  (length (halfkay_header v addr) <= halfkay_payload_offset v)%nat.
Proof.
  unfold halfkay_header, halfkay_payload_offset.
  repeat case_match; cbn; lia.
Qed.

Lemma halfkay_layout_length (m : ty_board_model) (addr : Z) (data : list Z) :
  0 <= block_size m -> Z.of_nat (length data) <= block_size m ->
  Z.of_nat (length (halfkay_layout m addr data))
  = block_size m + Z.of_nat (halfkay_payload_offset (halfkay_version m)).
Proof.
  intros Hb Hd. unfold halfkay_layout.
  pose proof (halfkay_header_length (halfkay_version m) addr).
  rewrite !length_app, !length_replicate. lia.
Qed.

Lemma halfkay_layout_payload (m : ty_board_model) (addr : Z) (data : list Z) (i : nat) :
  (i < length data)%nat ->
  halfkay_layout m addr data !! (halfkay_payload_offset (halfkay_version m) + i)%nat
  = data !! i.
Proof.
  intros Hi. unfold halfkay_layout.
  pose proof (halfkay_header_length (halfkay_version m) addr).
  rewrite lookup_app_r by lia.
  rewrite lookup_app_r by (rewrite length_replicate; lia).
  rewrite length_replicate.
  rewrite lookup_app_l by lia. f_equal. lia.
Qed.

(** The [restart:] loop comes to an end, given fuel for the time left.  It
    writes the report once, and once more, 10 ms later, after each answer
    [HS_ERROR_IO] got before the deadline; its result is the answer to the
    last write, which is [HS_ERROR_IO] only when the deadline has passed. *)
Lemma write_retry_spec (fuel : nat) : forall (w : Teensy.world) report start timeout,
  timeout - (Teensy.millis w - start) <= Z.of_nat fuel ->
  exists w' k,
    Teensy.write_retry fuel w report start timeout
    = Some (w', Teensy.hid_answers w (length (Teensy.hid_written w) + k)%nat)
    /\ Teensy.hid_written w' = Teensy.hid_written w ++ replicate (S k) report
    /\ Teensy.millis w' = Teensy.millis w + 10 * Z.of_nat k
    /\ Teensy.hid_answers w' = Teensy.hid_answers w
    /\ Teensy.experimental_boards w' = Teensy.experimental_boards w
    /\ (forall i, (i < k)%nat ->
          Teensy.hid_answers w (length (Teensy.hid_written w) + i)%nat
          = Teensy.HsErr Teensy.HS_ERROR_IO
          /\ Teensy.millis w + 10 * Z.of_nat i - start < timeout)
    /\ (Teensy.hid_answers w (length (Teensy.hid_written w) + k)%nat
        = Teensy.HsErr Teensy.HS_ERROR_IO ->
        timeout <= Teensy.millis w' - start).
Proof.
  induction fuel as [|fuel IH]; intros w report start timeout Hfuel.
  - (* no fuel: the deadline has passed already *)
    exists (fst (Teensy.hs_hid_write w report)), 0%nat.
    rewrite Nat.add_0_r. cbn [Teensy.write_retry Teensy.hs_hid_write Teensy.millis fst].
    assert (Hlate : (Teensy.millis w - start <? timeout) = false) by (apply Z.ltb_ge; lia).
    rewrite Hlate. apply Z.ltb_ge in Hlate.
    split; [by repeat case_match|]. cbn.
    split; [reflexivity|]. split; [lia|]. split; [reflexivity|]. split; [reflexivity|].
    split; [intros i Hi; lia|]. intros _. lia.
  - destruct (Teensy.hid_answers w (length (Teensy.hid_written w))) as [n|e] eqn:Hr.
    { exists (fst (Teensy.hs_hid_write w report)), 0%nat.
      rewrite Nat.add_0_r. cbn [Teensy.write_retry Teensy.hs_hid_write fst]. rewrite Hr. cbn.
      split; [reflexivity|]. split; [reflexivity|]. split; [lia|].
      split; [reflexivity|]. split; [reflexivity|].
      split; [intros i Hi; lia|]. discriminate. }
    assert (Hio : e = Teensy.HS_ERROR_IO \/ e <> Teensy.HS_ERROR_IO)
      by (destruct e; (by left) || (by right)).
    destruct (Z.ltb_spec (Teensy.millis w - start) timeout) as [Hlt|Hge];
      [destruct Hio as [->|Hne]|clear Hio].
    + (* [HS_ERROR_IO] before the deadline: one more round *)
      destruct (IH (Teensy.ty_delay (fst (Teensy.hs_hid_write w report)) 10)
                  report start timeout)
        as (w' & k & Hrun & Hw & Hms & Hans & Hexp & Hbefore & Hio).
      { cbn. lia. }
      cbn [Teensy.ty_delay Teensy.hs_hid_write Teensy.millis Teensy.hid_written
           Teensy.hid_answers fst] in Hrun, Hw, Hms, Hans, Hexp, Hbefore, Hio.
      rewrite length_app in Hrun, Hbefore, Hio. cbn [length] in Hrun, Hbefore, Hio.
      exists w', (S k).
      replace (length (Teensy.hid_written w) + S k)%nat
        with (length (Teensy.hid_written w) + 1 + k)%nat by lia.
      cbn [Teensy.write_retry Teensy.hs_hid_write Teensy.millis]. rewrite Hr.
      apply Z.ltb_lt in Hlt. rewrite Hlt. apply Z.ltb_lt in Hlt.
      split; [exact Hrun|]. split.
      { rewrite Hw, <- app_assoc. reflexivity. }
      split; [lia|]. split; [exact Hans|]. split; [exact Hexp|]. split.
      * intros [|i] Hi.
        { rewrite Nat.add_0_r. split; [exact Hr|lia]. }
        destruct (Hbefore i ltac:(lia)) as [Hi1 Hi2].
        replace (length (Teensy.hid_written w) + S i)%nat
          with (length (Teensy.hid_written w) + 1 + i)%nat by lia.
        split; [exact Hi1|lia].
      * exact Hio.
    + exists (fst (Teensy.hs_hid_write w report)), 0%nat.
      rewrite Nat.add_0_r. cbn [Teensy.write_retry Teensy.hs_hid_write fst]. rewrite Hr.
      split; [by destruct e|]. cbn.
      split; [reflexivity|]. split; [lia|]. split; [reflexivity|]. split; [reflexivity|].
      split; [intros i Hi; lia|]. congruence.
    + exists (fst (Teensy.hs_hid_write w report)), 0%nat.
      rewrite Nat.add_0_r. cbn [Teensy.write_retry Teensy.hs_hid_write Teensy.millis fst].
      rewrite Hr. apply Z.ltb_ge in Hge. rewrite Hge. apply Z.ltb_ge in Hge.
      split; [by destruct e|]. cbn.
      split; [reflexivity|]. split; [lia|]. split; [reflexivity|]. split; [reflexivity|].
      split; [intros i Hi; lia|]. intros _. lia.
Qed.

(** [halfkay_send] always comes to an end.  It writes the report of the
    layout table once, and once more, 10 ms later, after each answer
    [HS_ERROR_IO] got less than [timeout] ms after the first write.  Its
    status is that of the answer to the last write, which is [HS_ERROR_IO]
    only when [timeout] ms have passed. *)
Lemma halfkay_send_spec (w : Teensy.world) (iface : ty_board_interface) (m : ty_board_model)
    (addr : Z) (data : list Z) (timeout : Z) :
  if_model iface = Some m ->
  halfkay_version m = 1 \/ halfkay_version m = 2 \/ halfkay_version m = 3 ->
  0 <= block_size m -> block_size m + 65 < 2048 ->
  Z.of_nat (length data) <= block_size m ->
  exists w' r k,
    Teensy.halfkay_send w iface addr data timeout = Some (w', r)
    /\ Teensy.hid_written w'
       = Teensy.hid_written w ++ replicate (S k) (halfkay_layout m addr data)
    /\ Teensy.millis w' = Teensy.millis w + 10 * Z.of_nat k
    /\ (forall i, (i < k)%nat ->
          Teensy.hid_answers w (length (Teensy.hid_written w) + i)%nat
          = Teensy.HsErr Teensy.HS_ERROR_IO
          /\ 10 * Z.of_nat i < timeout)
    /\ (Teensy.hid_answers w (length (Teensy.hid_written w) + k)%nat
        = Teensy.HsErr Teensy.HS_ERROR_IO -> timeout <= 10 * Z.of_nat k)
    /\ (forall n, Teensy.hid_answers w (length (Teensy.hid_written w) + k)%nat
                  = Teensy.HsRet n -> r = Ret 0)
    /\ (forall e, Teensy.hid_answers w (length (Teensy.hid_written w) + k)%nat
                  = Teensy.HsErr e -> r = Err (Teensy.ty_libhs_translate_error e)).
Proof.
  intros Hm Hv Hb0 Hb Hd. unfold Teensy.halfkay_send.
  rewrite Hm. cbn [mbind option_bind].
  rewrite (halfkay_frame_layout m addr data Hv Hb0 Hb Hd). cbn [mbind option_bind].
  destruct (write_retry_spec (Z.to_nat timeout) w (halfkay_layout m addr data)
              (Teensy.millis w) timeout)
    as (w' & k & Hrun & Hw & Hms & _ & _ & Hbefore & Hio).
  { lia. }
  rewrite Hrun. cbn [mbind option_bind].
  eexists w', _, k. split; [reflexivity|].
  split; [exact Hw|]. split; [exact Hms|]. split.
  { intros i Hi. destruct (Hbefore i Hi) as [Hi1 Hi2]. split; [exact Hi1|lia]. }
  split; [intros Hlast; specialize (Hio Hlast); lia|].
  split.
  - intros n ->. reflexivity.
  - intros e ->. by destruct e.
Qed.

(** Every model of the registry meets the conditions under which the
    reports are described below. *)
Lemma teensy_models_halfkay :
  Forall (fun m => (halfkay_version m = 1 \/ halfkay_version m = 2 \/ halfkay_version m = 3)
                   /\ 0 <= block_size m /\ block_size m + 65 < 2048)
         Teensy.teensy_models.
Proof.
  unfold Teensy.teensy_models. repeat constructor; cbn; lia.
Qed.

(** The gate of the experimental models: without the environment variable, a
    reset of an experimental model is refused and nothing is written. *)
Lemma teensy_reset_unsupported (w : Teensy.world) (iface : ty_board_interface)
    (m : ty_board_model) :
  if_model iface = Some m ->
  experimental m = true -> Teensy.experimental_boards w = false ->
  Teensy.teensy_reset w iface = Some (w, Err TY_ERROR_UNSUPPORTED).
Proof.
  intros Hm He Hw. unfold Teensy.teensy_reset, Teensy.test_bootloader_support.
  rewrite Hm. cbn [mbind option_bind]. by rewrite He, Hw.
Qed.

(** C5: the report built for a block is zero-initialized and laid out by
    variant: V1 has addr[7:0] and addr[15:8] in bytes 1 and 2, V2 has
    addr[15:8] and addr[23:16] there, V3 has addr[7:0], addr[15:8] and
    addr[23:16] in bytes 1 to 3; the payload starts at offset 3 (V1, V2) or
    65 (V3) and the length is the block size plus that offset; this report
    is what a block write sends.  A reset sends the report of address
    0xFFFFFF without payload under a deadline of 250 ms: once, and once more,
    10 ms later, after each answer [HS_ERROR_IO], 25 times at most; its
    status is that of the last answer, which is [HS_ERROR_IO] only for the
    write made 250 ms after the first one. *)
Theorem halfkay_reports (m : ty_board_model) (addr : Z) (data : list Z)
    (w : Teensy.world) (iface : ty_board_interface) :
  halfkay_version m = 1 \/ halfkay_version m = 2 \/ halfkay_version m = 3 ->
  0 <= block_size m -> block_size m + 65 < 2048 ->
  Z.of_nat (length data) <= block_size m ->
  if_model iface = Some m ->
  Teensy.test_bootloader_support w m = Ret 0 ->
  exists report,
    Teensy.halfkay_frame m addr data = Some report
    /\ report = halfkay_layout m addr data
    /\ report !! 0%nat = Some 0
    /\ (halfkay_version m = 1 ->
        report !! 1%nat = Some (Z.land addr 255)
        /\ report !! 2%nat = Some (Z.land (Z.shiftr addr 8) 255)
        /\ Z.of_nat (length report) = block_size m + 3
        /\ forall i, (i < length data)%nat -> report !! (3 + i)%nat = data !! i)
    /\ (halfkay_version m = 2 ->
        report !! 1%nat = Some (Z.land (Z.shiftr addr 8) 255)
        /\ report !! 2%nat = Some (Z.land (Z.shiftr addr 16) 255)
        /\ Z.of_nat (length report) = block_size m + 3
        /\ forall i, (i < length data)%nat -> report !! (3 + i)%nat = data !! i)
    /\ (halfkay_version m = 3 ->
        report !! 1%nat = Some (Z.land addr 255)
        /\ report !! 2%nat = Some (Z.land (Z.shiftr addr 8) 255)
        /\ report !! 3%nat = Some (Z.land (Z.shiftr addr 16) 255)
        /\ Z.of_nat (length report) = block_size m + 65
        /\ forall i, (i < length data)%nat -> report !! (65 + i)%nat = data !! i)
    /\ (forall timeout, exists w' r k,
          Teensy.halfkay_send w iface addr data timeout = Some (w', r)
          /\ Teensy.hid_written w' = Teensy.hid_written w ++ replicate (S k) report)
    /\ exists w' r k,
        let last := Teensy.hid_answers w (length (Teensy.hid_written w) + k)%nat in
        Teensy.teensy_reset w iface = Some (w', r)
        /\ Teensy.hid_written w'
           = Teensy.hid_written w ++ replicate (S k) (halfkay_layout m 0xFFFFFF [])
        /\ Teensy.millis w' = Teensy.millis w + 10 * Z.of_nat k
        /\ (k <= 25)%nat
        /\ (forall i, (i < k)%nat ->
              Teensy.hid_answers w (length (Teensy.hid_written w) + i)%nat
              = Teensy.HsErr Teensy.HS_ERROR_IO)
        /\ (last = Teensy.HsErr Teensy.HS_ERROR_IO ->
            k = 25%nat /\ r = Err TY_ERROR_IO
            /\ Teensy.millis w' - Teensy.millis w = 250)
        /\ (forall n, last = Teensy.HsRet n -> r = Ret 0)
        /\ (forall e, last = Teensy.HsErr e -> r = Err (Teensy.ty_libhs_translate_error e)).
Proof.
  intros Hv Hb0 Hb Hd Hm Hsup.
  exists (halfkay_layout m addr data).
  split; [by apply halfkay_frame_layout|]. split; [reflexivity|].
  pose proof (halfkay_layout_length m addr data Hb0 Hd) as Hlen.
  pose proof (halfkay_layout_payload m addr data) as Hpay.
  split.
  { unfold halfkay_layout, halfkay_header. repeat case_match; reflexivity. }
  split; [|split; [|split; [|split]]].
  - intros Hv1. rewrite Hv1 in Hlen, Hpay.
    unfold halfkay_layout, halfkay_header, addr_bits in *. rewrite Hv1 in *.
    cbn [Z.eqb Pos.eqb] in *. rewrite Z.shiftr_0_r. repeat split; try done.
  - intros Hv2. rewrite Hv2 in Hlen, Hpay.
    unfold halfkay_layout, halfkay_header, addr_bits in *. rewrite Hv2 in *.
    cbn [Z.eqb Pos.eqb] in *. repeat split; try done.
  - intros Hv3. rewrite Hv3 in Hlen, Hpay.
    unfold halfkay_layout, halfkay_header, addr_bits in *. rewrite Hv3 in *.
    cbn [Z.eqb Pos.eqb] in *. rewrite Z.shiftr_0_r. repeat split; try done.
  - intros timeout.
    destruct (halfkay_send_spec w iface m addr data timeout Hm Hv Hb0 Hb Hd)
      as (w' & r & k & Hrun & Hw & _).
    exists w', r, k. split; [exact Hrun|exact Hw].
  - unfold Teensy.teensy_reset. rewrite Hm. cbn [mbind option_bind]. rewrite Hsup.
    destruct (halfkay_send_spec w iface m 0xFFFFFF [] 250 Hm Hv Hb0 Hb)
      as (w' & r & k & Hrun & Hw & Hms & Hbefore & Hio & Hok & Herr).
    { cbn. lia. }
    assert (Hk : (k <= 25)%nat).
    { destruct k as [|k]; [lia|]. destruct (Hbefore k ltac:(lia)) as [_ Hlt]. lia. }
    exists w', r, k. cbv zeta. split; [exact Hrun|]. split; [exact Hw|].
    split; [exact Hms|]. split; [exact Hk|]. split.
    { intros i Hi. apply (Hbefore i Hi). }
    split; [|split; [exact Hok|exact Herr]].
    intros Hlast. specialize (Hio Hlast).
    split; [lia|]. split; [apply (Herr _ Hlast)|lia].
Qed.

Lemma halfkay_reports_witness :
  exists w',
    Teensy.teensy_reset stalled_world halfkay_30_interface = Some (w', Err TY_ERROR_IO)
    /\ length (Teensy.hid_written w') = 26%nat
    /\ Teensy.millis w' = 1250.
Proof.
  destruct (halfkay_reports Teensy.teensy_30_model 0x400 [1; 2; 3] stalled_world
              halfkay_30_interface)
    as (_ & _ & _ & _ & _ & _ & _ & _ & w' & r & k & Hrun & Hw & Hms & _ & _ & Hio & _);
    try reflexivity; try (cbn; lia).
  destruct (Hio eq_refl) as (-> & -> & Hdl).
  exists w'. split; [exact Hrun|]. split.
  - rewrite Hw, length_app, length_replicate. reflexivity.
  - rewrite Hms. reflexivity.
Defined.

(** ** Firmware identification *)

Lemma guess_signature_no_match v max st sig :
  v <> Teensy.magic sig -> Teensy.guess_signature v max st sig = st.
Proof.
  intros Hne. unfold Teensy.guess_signature. destruct st as [prio guesses].
  apply Z.eqb_neq in Hne. by rewrite Hne.
Qed.

Lemma guess_offset_no_match img max st i :
  ~ signature_at img i -> Teensy.guess_offset img max st i = st.
Proof.
  intros Hno. unfold Teensy.guess_offset.
  assert (H : forall sigs, (forall sig, In sig sigs -> In sig Teensy.signatures) ->
              fold_left (Teensy.guess_signature (Teensy.value8 img i) max) sigs st = st).
  { induction sigs as [|sig sigs IH]; intros Hin; [reflexivity|].
    cbn [fold_left]. rewrite guess_signature_no_match.
    - apply IH. intros s Hs. apply Hin. by right.
    - intros Heq. apply Hno. exists sig. split; [apply Hin; by left|exact Heq]. }
  apply H. auto.
Qed.

(** Only the windows at the offsets below [size - 8] count: a firmware
    without a signature there has no guess, whatever its last window holds. *)
Lemma guess_models_windows (fw : ty_firmware) (max : nat) :
  (forall i, Z.of_nat i < ty_firmware_get_size fw - 8 ->
             ~ signature_at (ty_firmware_get_image fw) i) ->
  Teensy.teensy_guess_models fw max = [].
Proof.
  intros Hno. unfold Teensy.teensy_guess_models.
  destruct (ty_firmware_get_size fw <? 8); [reflexivity|].
  assert (H : forall l, (forall i, In i l -> Z.of_nat i < ty_firmware_get_size fw - 8) ->
              fold_left (Teensy.guess_offset (ty_firmware_get_image fw) max) l (0, [])
              = (0, [])).
  { induction l as [|i l IH]; intros Hl; [reflexivity|].
    cbn [fold_left]. rewrite guess_offset_no_match.
    - apply IH. intros j Hj. apply Hl. by right.
    - apply Hno, Hl. by left. }
  rewrite H; [reflexivity|].
  intros i Hi. apply in_seq in Hi. lia.
Qed.

Lemma guess_signatures_matched v max sigs : forall st,
  fold_left (Teensy.guess_signature v max) sigs st
  = fold_left (guess_match max) (filter (fun sig => v = Teensy.magic sig) sigs) st.
Proof.
  induction sigs as [|sig sigs IH]; intros st; [reflexivity|].
  cbn [fold_left]. rewrite filter_cons. case_decide as Hm.
  - cbn [fold_left]. unfold guess_match at 2. rewrite <- Hm. apply IH.
  - rewrite guess_signature_no_match by done. apply IH.
Qed.

Lemma guess_offsets_matched img max offs : forall st,
  fold_left (Teensy.guess_offset img max) offs st
  = fold_left (guess_match max)
      (flat_map (fun i => filter (fun sig => Teensy.value8 img i = Teensy.magic sig)
                                 Teensy.signatures) offs) st.
Proof.
  induction offs as [|i offs IH]; intros st; [reflexivity|].
  cbn [fold_left flat_map]. rewrite fold_left_app, IH.
  unfold Teensy.guess_offset. by rewrite guess_signatures_matched.
Qed.

Lemma top_priority_snoc ms sig :
  top_priority (ms ++ [sig]) = Z.max (top_priority ms) (Teensy.priority sig).
Proof.
  induction ms as [|s ms IH]; cbn.
  - lia.
  - unfold top_priority in IH. rewrite IH. lia.
Qed.

Lemma top_priority_bound ms sig : sig ∈ ms -> Teensy.priority sig <= top_priority ms.
Proof.
  induction ms as [|s ms IH]; intros Hin.
  - by apply elem_of_nil in Hin.
  - apply elem_of_cons in Hin as [->|Hin]; cbn; [lia|].
    specialize (IH Hin). unfold top_priority in IH. lia.
Qed.

Lemma top_priority_nonneg ms : 0 <= top_priority ms.
Proof. induction ms as [|s ms IH]; cbn; [lia|]. unfold top_priority in IH. lia. Qed.

Lemma filter_none_below ms (p : Z) :
  top_priority ms < p -> filter (fun sig => Teensy.priority sig = p) ms = [].
Proof.
  intros Hlt. induction ms as [|s ms IH]; [reflexivity|].
  cbn in Hlt. rewrite filter_cons. rewrite decide_False by lia.
  apply IH. unfold top_priority. lia.
Qed.

(** The state of the search after a run of matches: the highest priority
    met, and the models of the matches of that priority. *)
Lemma guess_matches_spec max ms :
  fold_left (guess_match max) ms (0, []) = (top_priority ms, best_models max ms).
Proof.
  induction ms as [|sig ms IH] using rev_ind.
  { unfold best_models. cbn. by rewrite take_nil. }
  rewrite fold_left_app, IH. cbn [fold_left].
  unfold guess_match, Teensy.guess_signature, best_models.
  rewrite Z.eqb_refl. cbn [andb].
  rewrite top_priority_snoc, filter_app, map_app.
  set (P := top_priority ms). set (q := Teensy.priority sig).
  set (L := map Teensy.sig_model (filter (fun s => Teensy.priority s = P) ms)).
  destruct (Z.leb_spec P q) as [Hle|Hgt].
  - destruct (Z.ltb_spec P q) as [Hlt|Hge].
    + rewrite Z.max_r by lia. rewrite filter_none_below by (fold P; lia).
      rewrite filter_cons, decide_True by reflexivity. rewrite filter_nil.
      cbn [map app length]. destruct max as [|max]; cbn; rewrite ?take_nil; reflexivity.
    + assert (q = P) as Hq by lia. rewrite Z.max_l by lia.
      rewrite filter_cons, decide_True by (fold q; lia). rewrite filter_nil. cbn [map].
      fold L. rewrite length_take.
      destruct (Nat.ltb_spec (max `min` length L) max) as [Hroom|Hfull].
      * rewrite (take_ge L) by lia. rewrite take_ge; [easy|].
        rewrite length_app. cbn. lia.
      * rewrite take_app_le by lia. reflexivity.
  - rewrite Z.max_l by lia.
    rewrite filter_cons, decide_False by (fold q; lia). rewrite filter_nil. cbn [map].
    by rewrite app_nil_r.
Qed.

(** What [teensy_guess_models] computes: the signatures found in the windows
    at the offsets below [size - 8] being taken in order, it gives the models
    of those of highest priority, as many as the output array holds. *)
Lemma guess_models_spec (fw : ty_firmware) (max : nat) :
  Teensy.teensy_guess_models fw max
  = if ty_firmware_get_size fw <? 8 then []
    else best_models max
           (matched_signatures (ty_firmware_get_image fw)
              (Z.to_nat (ty_firmware_get_size fw - 8))).
Proof.
  unfold Teensy.teensy_guess_models.
  destruct (ty_firmware_get_size fw <? 8); [reflexivity|].
  rewrite guess_offsets_matched. fold (matched_signatures (ty_firmware_get_image fw)
    (Z.to_nat (ty_firmware_get_size fw - 8))).
  by rewrite guess_matches_spec.
Qed.

Lemma value8_drop img i : Teensy.value8 img i = Teensy.value8 (drop i img) 0.
Proof.
  unfold Teensy.value8, byte_at. rewrite !lookup_drop.
  rewrite Nat.add_0_r. reflexivity.
Qed.

Lemma tail_drop (l : list Z) : forall s, tail (drop s l) = drop (S s) l.
Proof.
  induction l as [|x l IH]; intros [|s]; cbn; try reflexivity.
  apply IH.
Qed.

Lemma guess_windows_spec max img n : forall s st,
  fold_left (Teensy.guess_offset img max) (seq s n) st
  = guess_windows max (drop s img) n st.
Proof.
  induction n as [|n IH]; intros s st; [reflexivity|].
  cbn [seq fold_left guess_windows]. rewrite IH.
  unfold Teensy.guess_offset. rewrite <- value8_drop.
  f_equal. symmetry. apply tail_drop.
Qed.

(** [teensy_guess_models], evaluated window by window. *)
Lemma guess_models_by_windows fw max :
  Teensy.teensy_guess_models fw max
  = if ty_firmware_get_size fw <? 8 then []
    else snd (guess_windows max (ty_firmware_get_image fw)
                (Z.to_nat (ty_firmware_get_size fw - 8)) (0, [])).
Proof.
  unfold Teensy.teensy_guess_models. rewrite guess_windows_spec. reflexivity.
Qed.

(** C3: the scan stops one window short.  A firmware that is exactly the
    signature of the Teensy 3.0, or 4096 bytes ending with it, holds one
    signature, in its last window at offset [size - 8]; no model is guessed.
    One byte earlier the signature is found. *)
Theorem guess_models_misses_last_window :
  Teensy.value8 teensy_30_magic 0 = 0x38800440823F0400
  /\ Teensy.teensy_guess_models {| ty_firmware_get_image := teensy_30_magic |} 16 = []
  /\ Teensy.teensy_guess_models
       {| ty_firmware_get_image := place 4088 teensy_30_magic (zeros 4096) |} 16 = []
  /\ Teensy.teensy_guess_models
       {| ty_firmware_get_image := place 4087 teensy_30_magic (zeros 4096) |} 16
     = [Teensy.teensy_30_model].
Proof.
  rewrite !guess_models_by_windows.
  split; [|split; [|split]]; vm_compute; reflexivity.
Qed.

(** The identification scenario of the specification: the Teensy 3.0
    signature at offset 1024 of 4096 zero bytes gives the Teensy 3.0 alone;
    with the signature of priority 1 at offset 2048 as well, the model of
    that signature alone. *)
Lemma guess_models_scenario :
  Teensy.teensy_guess_models
    {| ty_firmware_get_image := place 1024 teensy_30_magic (zeros 4096) |} 16
  = [Teensy.teensy_30_model]
  /\ Teensy.teensy_guess_models
       {| ty_firmware_get_image :=
            place 2048 teensy_k64_magic (place 1024 teensy_30_magic (zeros 4096)) |} 16
     = [Teensy.teensy_k64_model].
Proof.
  rewrite !guess_models_by_windows.
  split; vm_compute; reflexivity.
Qed.

(** ** Upload checks of the board manager *)

(** C4, as stated, fails: the bootloader board has UPLOAD, the firmware of
    16 zero bytes fits and has no guessed model, NOCHECK is not given, and
    the upload is refused with FIRMWARE instead of passing the check. *)
Lemma upload_without_guess_is_refused :
  let fw := {| ty_firmware_get_image := zeros 16 |} in
  Board.ty_board_has_capability bootloader_board TY_BOARD_CAPABILITY_UPLOAD = true
  /\ ty_firmware_get_size fw <= code_size Teensy.teensy_30_model
  /\ Z.land 0 Board.TY_BOARD_UPLOAD_NOCHECK = 0
  /\ Board.ty_board_test_firmware false fw = None
  /\ Board.ty_board_upload false upload_ok bootloader_board fw 0
     = Some (Err TY_ERROR_FIRMWARE)
  /\ ~ (Board.ty_board_upload false upload_ok bootloader_board fw 0
        = Some (Err TY_ERROR_FIRMWARE)
        <-> exists guess, Board.ty_board_test_firmware false fw = Some guess
                          /\ guess <> Teensy.teensy_30_model).
Proof.
  cbn zeta. repeat split; try (vm_compute; reflexivity); try (vm_compute; discriminate).
  intros [H _]. destruct H as (guess & Hg & _); [vm_compute; reflexivity|].
  vm_compute in Hg. discriminate.
Qed.

(** Without UPLOAD the upload is refused with MODE, whatever the firmware
    and the flags, and the upload routine of the mode is not reached. *)
Lemma upload_needs_capability (experimental_build : bool)
    (vtable_upload : Board.ty_board -> ty_firmware -> Z -> ret)
    (board : Board.ty_board) (f : ty_firmware) (flags : Z) :
  Board.ty_board_has_capability board TY_BOARD_CAPABILITY_UPLOAD = false ->
  Board.ty_board_upload experimental_build vtable_upload board f flags
  = Some (Err TY_ERROR_MODE).
Proof.
  intros Hup. unfold Board.ty_board_upload. by rewrite Hup.
Qed.

(** C4, amended: for a board with UPLOAD, the upload is refused with RANGE
    exactly when the firmware is larger than the code size of the model,
    with or without NOCHECK.  When the size fits and NOCHECK is not given, it
    is refused with FIRMWARE exactly when no model is guessed for the
    firmware, or when the board has IDENTIFY and the guess is not its model;
    it is refused with MODE when a model is guessed and the board has not
    IDENTIFY; a guess that is the model of a board with IDENTIFY lets the
    upload start.  When the size fits and NOCHECK is given, the upload
    starts.  (The upload routine of the mode is assumed not to fail with
    RANGE or FIRMWARE itself.) *)
Theorem upload_checks (experimental_build : bool)
    (vtable_upload : Board.ty_board -> ty_firmware -> Z -> ret)
    (board : Board.ty_board) (f : ty_firmware) (flags : Z) (m : ty_board_model) :
  Board.ty_board_has_capability board TY_BOARD_CAPABILITY_UPLOAD = true ->
  Board.model board = Some m ->
  (forall b fw fl, vtable_upload b fw fl <> Err TY_ERROR_RANGE
                   /\ vtable_upload b fw fl <> Err TY_ERROR_FIRMWARE) ->
  let r := Board.ty_board_upload experimental_build vtable_upload board f flags in
  let guess := Board.ty_board_test_firmware experimental_build f in
  (r = Some (Err TY_ERROR_RANGE) <-> code_size m < ty_firmware_get_size f)
  /\ (ty_firmware_get_size f <= code_size m ->
      Z.land flags Board.TY_BOARD_UPLOAD_NOCHECK = 0 ->
      (r = Some (Err TY_ERROR_FIRMWARE) <->
       guess = None
       \/ (Board.ty_board_has_capability board TY_BOARD_CAPABILITY_IDENTIFY = true
           /\ guess <> Some m))
      /\ (guess <> None ->
          Board.ty_board_has_capability board TY_BOARD_CAPABILITY_IDENTIFY = false ->
          r = Some (Err TY_ERROR_MODE))
      /\ (guess = Some m ->
          Board.ty_board_has_capability board TY_BOARD_CAPABILITY_IDENTIFY = true ->
          r = Some (vtable_upload board f flags)))
  /\ (ty_firmware_get_size f <= code_size m ->
      Z.land flags Board.TY_BOARD_UPLOAD_NOCHECK <> 0 ->
      r = Some (vtable_upload board f flags)).
Proof.
  intros Hup Hm Hvt r guess. subst r guess. unfold Board.ty_board_upload.
  rewrite Hup, Hm. cbn [negb mbind option_bind].
  destruct (Z.ltb_spec (code_size m) (ty_firmware_get_size f)) as [Hbig|Hfit].
  { split; [split; [lia|reflexivity]|]. split; intros; lia. }
  destruct (Z.eqb_spec (Z.land flags Board.TY_BOARD_UPLOAD_NOCHECK) 0) as [Hno|Hyes].
  2: { split; [split; [intros [= H]; by apply Hvt in H|lia]|].
       split; [intros; lia|reflexivity]. }
  destruct (Board.ty_board_test_firmware experimental_build f) as [g|] eqn:Hg.
  2: { split; [split; [discriminate|lia]|]. split; [|intros; lia].
       intros _ _. split; [split; [by left|reflexivity]|].
       split; [intros Hsome; by destruct Hsome|discriminate]. }
  destruct (Board.ty_board_has_capability board TY_BOARD_CAPABILITY_IDENTIFY) eqn:Hid;
    cbn [negb].
  2: { split; [split; [discriminate|lia]|]. split; [|intros; lia].
       intros _ _. split; [|split; [reflexivity|discriminate]].
       split; [discriminate|]. intros [?|[? _]]; discriminate. }
  case_bool_decide as Heq; cbn [negb].
  - subst g. split; [split; [intros [= H]; by apply Hvt in H|lia]|].
    split; [|intros; lia]. intros _ _. split; [|split; [discriminate|reflexivity]].
    split; [intros [= H]; by apply Hvt in H|]. intros [?|[_ ?]]; [discriminate|done].
  - split; [split; [discriminate|lia]|]. split; [|intros; lia].
    intros _ _. split; [|split; [discriminate|congruence]].
    split; [|reflexivity]. intros _. right. split; [reflexivity|congruence].
Qed.

Lemma upload_checks_witness :
  Board.ty_board_upload false upload_ok bootloader_board
    {| ty_firmware_get_image := zeros 16 |} Board.TY_BOARD_UPLOAD_NOCHECK = Some (Ret 0)
  /\ Board.ty_board_upload false upload_ok carried_over_board
       {| ty_firmware_get_image := teensy_30_magic ++ zeros 8 |} 0 = Some (Err TY_ERROR_MODE).
Proof.
  split.
  - apply (upload_checks false upload_ok bootloader_board
             {| ty_firmware_get_image := zeros 16 |} Board.TY_BOARD_UPLOAD_NOCHECK
             Teensy.teensy_30_model).
    + reflexivity.
    + reflexivity.
    + intros b fw fl. split; discriminate.
    + vm_compute. discriminate.
    + vm_compute. discriminate.
  - apply (upload_checks false upload_ok carried_over_board
             {| ty_firmware_get_image := teensy_30_magic ++ zeros 8 |} 0
             Teensy.teensy_30_model).
    + reflexivity.
    + reflexivity.
    + intros b fw fl. split; discriminate.
    + vm_compute. discriminate.
    + reflexivity.
    + vm_compute. discriminate.
    + reflexivity.
Defined.

(** ** Listing the boards *)

Lemma list_boards_spec (h : gmap nat Monitor.ty_board) (l : list nat)
    (f : nat -> Monitor.ty_board -> Monitor.ty_monitor_event -> Z) :
  let online :=
    omap (fun p =>
            b ← h !! p;
            if bool_decide (Monitor.state b = Monitor.TY_BOARD_STATE_ONLINE)
            then Some (p, b, Monitor.TY_MONITOR_EVENT_ADDED) else None) l in
  let '(calls, r) := Monitor.list_boards h l f in
  calls `prefix_of` online
  /\ (r = 0 -> calls = online)
  /\ (r <> 0 -> exists p b,
        last calls = Some (p, b, Monitor.TY_MONITOR_EVENT_ADDED)
        /\ f p b Monitor.TY_MONITOR_EVENT_ADDED = r).
Proof.
  induction l as [|p l IH]; cbn zeta.
  - cbn. split; [done|]. split; [done|]. intros H; by destruct H.
  - cbn [Monitor.list_boards omap list_omap]. cbn zeta in IH.
    destruct (h !! p) as [b|] eqn:Hb; cbn [mbind option_bind]; [|exact IH].
    case_bool_decide as Hon; [|exact IH].
    destruct (Z.eqb_spec (f p b Monitor.TY_MONITOR_EVENT_ADDED) 0) as [Hz|Hnz].
    + destruct (Monitor.list_boards h l f) as [calls r].
      destruct IH as (Hpre & Hall & Hstop).
      split; [by apply prefix_cons|].
      split; [intros Hr; f_equal; by apply Hall|].
      intros Hr. destruct (Hstop Hr) as (q & c & Hlast & Hf).
      exists q, c. split; [|exact Hf].
      destruct calls; [discriminate|]. exact Hlast.
    + split; [apply prefix_cons, prefix_nil|].
      split; [done|]. intros _. exists p, b. done.
Qed.

Lemma online_boards_elem (m : Monitor.ty_monitor) p b ev :
  (p, b, ev) ∈ online_boards m ->
  ev = Monitor.TY_MONITOR_EVENT_ADDED
  /\ p ∈ Monitor.boards m
  /\ Monitor.heap m !! p = Some b
  /\ Monitor.state b = Monitor.TY_BOARD_STATE_ONLINE.
Proof.
  unfold online_boards. intros H.
  apply list_elem_of_omap in H as (q & Hq & Hsome).
  destruct (Monitor.heap m !! q) as [c|] eqn:Hc; cbn in Hsome; [|discriminate].
  case_bool_decide; [|discriminate].
  injection Hsome as <- <- <-. done.
Qed.

(** C9: [ty_monitor_list] calls back for online boards only, with the event
    ADDED, in the order of the list of boards: the calls are the online
    boards of the list in order, up to the first call answering something
    else than 0.  A board that is missing is never reported. *)
Theorem monitor_list_reports_online (m : Monitor.ty_monitor)
    (f : nat -> Monitor.ty_board -> Monitor.ty_monitor_event -> Z) :
  let calls := fst (Monitor.ty_monitor_list m f) in
  let r := snd (Monitor.ty_monitor_list m f) in
  calls `prefix_of` online_boards m
  /\ (forall p b ev, (p, b, ev) ∈ calls ->
        ev = Monitor.TY_MONITOR_EVENT_ADDED
        /\ p ∈ Monitor.boards m
        /\ Monitor.heap m !! p = Some b
        /\ Monitor.state b = Monitor.TY_BOARD_STATE_ONLINE)
  /\ (forall p b, Monitor.heap m !! p = Some b ->
        Monitor.state b = Monitor.TY_BOARD_STATE_MISSING ->
        forall b' ev, (p, b', ev) ∉ calls)
  /\ (r = 0 -> calls = online_boards m)
  /\ (r <> 0 -> exists p b,
        last calls = Some (p, b, Monitor.TY_MONITOR_EVENT_ADDED)
        /\ f p b Monitor.TY_MONITOR_EVENT_ADDED = r).
Proof.
  cbn zeta. unfold Monitor.ty_monitor_list.
  pose proof (list_boards_spec (Monitor.heap m) (Monitor.boards m) f) as H.
  cbn zeta in H. fold (online_boards m) in H.
  destruct (Monitor.list_boards (Monitor.heap m) (Monitor.boards m) f) as [calls r].
  destruct H as (Hpre & Hall & Hstop). cbn [fst snd].
  assert (Hin : forall p b ev, (p, b, ev) ∈ calls ->
            ev = Monitor.TY_MONITOR_EVENT_ADDED /\ p ∈ Monitor.boards m
            /\ Monitor.heap m !! p = Some b
            /\ Monitor.state b = Monitor.TY_BOARD_STATE_ONLINE).
  { intros p b ev Hel. apply online_boards_elem.
    destruct Hpre as [k ->]. apply elem_of_app. by left. }
  split; [exact Hpre|]. split; [exact Hin|].
  split; [|split; [exact Hall|exact Hstop]].
  intros p b Hb Hmiss b' ev Hel.
  apply Hin in Hel as (_ & _ & Hb' & Hon). congruence.
Qed.

Lemma monitor_list_reports_online_witness :
  fst (Monitor.ty_monitor_list (Monitor.run Monitor.ty_monitor_new two_interfaces_trace)
         (fun _ _ _ => 0))
  = online_boards (Monitor.run Monitor.ty_monitor_new two_interfaces_trace)
  /\ length (online_boards (Monitor.run Monitor.ty_monitor_new two_interfaces_trace)) = 1%nat
  /\ length (Monitor.boards (Monitor.run Monitor.ty_monitor_new two_interfaces_trace)) = 2%nat.
Proof.
  split; [|split; vm_compute; reflexivity].
  apply (monitor_list_reports_online
           (Monitor.run Monitor.ty_monitor_new two_interfaces_trace) (fun _ _ _ => 0)).
  vm_compute. reflexivity.
Defined.

(** The listing of the older board manager behaves the same way: the calls
    are the online boards of the list, in order, with the event ADDED, up to
    the first call answering something else than 0. *)
Lemma manager_list_reports_online (l : list Board.ty_board)
    (f : Board.ty_board -> Board.ty_board_event -> Z) :
  let online :=
    map (fun b => (b, Board.TY_BOARD_EVENT_ADDED))
        (filter (fun b => Board.state b = Board.TY_BOARD_STATE_ONLINE) l) in
  fst (Board.ty_board_manager_list l f) `prefix_of` online
  /\ (snd (Board.ty_board_manager_list l f) = 0 ->
      fst (Board.ty_board_manager_list l f) = online).
Proof.
  induction l as [|b l IH]; cbn zeta.
  - cbn. done.
  - cbn [Board.ty_board_manager_list]. cbn zeta in IH.
    rewrite filter_cons. case_bool_decide as Hon.
    + rewrite decide_True by done. cbn [map].
      destruct (Z.eqb_spec (f b Board.TY_BOARD_EVENT_ADDED) 0) as [Hz|Hnz].
      * destruct (Board.ty_board_manager_list l f) as [calls r]. cbn [fst snd] in *.
        destruct IH as [Hpre Hall]. split; [by apply prefix_cons|].
        intros Hr. f_equal. by apply Hall.
      * cbn [fst snd]. split; [apply prefix_cons, prefix_nil|done].
    + rewrite decide_False by done. exact IH.
Qed.

(** ** The monitor *)

Import Monitor.

Lemma trigger_callbacks_frame m p ev :
  let m' := fst (trigger_callbacks m p ev) in
  heap m' = heap m /\ boards m' = boards m /\ missing_boards m' = missing_boards m
  /\ monitor_interfaces m' = monitor_interfaces m /\ brk m' = brk m.
Proof.
  unfold trigger_callbacks.
  destruct (heap m !! p); [destruct (run_callbacks _ _ _ _)|]; done.
Qed.

Ltac frame_callbacks :=
  repeat match goal with
         | |- context [fst (trigger_callbacks ?m1 ?p ?ev)] =>
             let H := fresh in
             pose proof (trigger_callbacks_frame m1 p ev) as H; cbn zeta in H;
             generalize dependent (fst (trigger_callbacks m1 p ev));
             intros ? (? & ? & ? & ? & ?)
         end.

Lemma close_board_heap m p : heap (close_board m p) = alter closed p (heap m).
Proof.
  unfold close_board. destruct (heap m !! p) as [b|] eqn:Hb.
  - frame_callbacks. cbn in *. etransitivity; [eassumption|].
    by rewrite alter_alter_eq.
  - by rewrite alter_id'.
Qed.

Lemma close_board_lists m p :
  boards (close_board m p) = boards m
  /\ missing_boards (close_board m p) = missing_boards m
  /\ brk (close_board m p) = brk m.
Proof.
  unfold close_board. destruct (heap m !! p) as [b|] eqn:Hb; [|done].
  frame_callbacks. cbn in *. done.
Qed.

Lemma drop_board_heap m p :
  heap (drop_board m p) = alter (set_state TY_BOARD_STATE_DROPPED) p (heap m).
Proof.
  unfold drop_board. frame_callbacks. cbn in *. done.
Qed.

Lemma drop_board_lists m p :
  boards (drop_board m p) = ty_list_remove p (boards m)
  /\ missing_boards (drop_board m p) = ty_list_remove p (missing_boards m)
  /\ brk (drop_board m p) = brk m.
Proof.
  unfold drop_board. frame_callbacks. cbn in *. 
  repeat split; congruence.
Qed.

Lemma update_board_heap m p iface dev :
  heap (update_board m p iface dev) = alter (updated iface dev) p (heap m).
Proof.
  unfold update_board. destruct (heap m !! p) as [b|] eqn:Hb; [|by rewrite alter_id'].
  assert (Hext : forall g, (g b = updated iface dev b) ->
             alter g p (heap m) = alter (updated iface dev) p (heap m)).
  { intros g Hg. apply alter_ext. intros x Hx. rewrite Hb in Hx. by injection Hx as <-. }
  assert (Hid : updated iface dev b = b ->
            heap m = alter (updated iface dev) p (heap m)).
  { intros Hu. symmetry. apply alter_id. intros x Hx. rewrite Hb in Hx.
    by injection Hx as <-. }
  destruct (negb (vid b =? dev_vid dev) || negb (pid b =? dev_pid dev)) eqn:H1;
    destruct (ty_board_model_is_real (if_model iface)) eqn:H2;
    destruct (negb (if_serial iface =? 0)) eqn:H3;
    try (destruct (bool_decide (state b = TY_BOARD_STATE_ONLINE)) eqn:H4);
    cbn [heap modify with_heap];
    rewrite ?close_board_heap, ?alter_alter_eq;
    first [ apply Hext | apply Hid ];
    unfold updated; rewrite ?H1, ?H2, ?H3, ?H4; reflexivity.
Qed.

Lemma update_board_lists m p iface dev :
  boards (update_board m p iface dev) = boards m
  /\ missing_boards (update_board m p iface dev) = missing_boards m
  /\ brk (update_board m p iface dev) = brk m.
Proof.
  unfold update_board. destruct (heap m !! p) as [b|] eqn:Hb; [|done].
  pose proof (close_board_lists m p) as (Hc1 & Hc2 & Hc3).
  repeat case_match; cbn; rewrite ?Hc1, ?Hc2, ?Hc3; done.
Qed.

Lemma attach_interface_heap m p iface :
  heap (attach_interface m p iface) = alter (attached p iface) p (heap m).
Proof.
  unfold attach_interface. cbn. rewrite alter_alter_eq. reflexivity.
Qed.

Lemma attach_interface_lists m p iface :
  boards (attach_interface m p iface) = boards m
  /\ missing_boards (attach_interface m p iface) = ty_list_remove p (missing_boards m)
  /\ brk (attach_interface m p iface) = brk m.
Proof. done. Qed.

Lemma find_board_some m loc p :
  find_board m loc = Some p ->
  exists b, heap m !! p = Some b /\ location b = loc /\ p ∈ boards m.
Proof.
  unfold find_board. intros H. apply find_some in H as [Hin Hp].
  destruct (heap m !! p) as [b|]; [|discriminate].
  exists b. split; [done|]. split; [by apply bool_decide_eq_true in Hp|].
  by apply list_elem_of_In.
Qed.

Lemma discard_heap m p b :
  heap m !! p = Some b ->
  heap (drop_board (if bool_decide (state b = TY_BOARD_STATE_ONLINE)
                    then close_board m p else m) p)
  = alter discarded p (heap m).
Proof.
  intros Hb. rewrite drop_board_heap.
  assert (Hext : forall g, g b = discarded b ->
            alter g p (heap m) = alter discarded p (heap m)).
  { intros g Hg. apply alter_ext. intros x Hx. rewrite Hb in Hx. by injection Hx as <-. }
  destruct (bool_decide (state b = TY_BOARD_STATE_ONLINE)) eqn:Hon.
  - rewrite close_board_heap, alter_alter_eq. apply Hext.
    unfold discarded. by rewrite Hon.
  - apply Hext. unfold discarded. by rewrite Hon.
Qed.

Lemma discard_lists m p b :
  let m' := drop_board (if bool_decide (state b = TY_BOARD_STATE_ONLINE)
                        then close_board m p else m) p in
  missing_boards m' = ty_list_remove p (missing_boards m) /\ brk m' = brk m.
Proof.
  cbn zeta.
  match goal with
  | |- context [drop_board ?m1 p] =>
      destruct (drop_board_lists m1 p) as (_ & -> & ->)
  end.
  destruct (close_board_lists m p) as (_ & Hc2 & Hc3).
  case_bool_decide; rewrite ?Hc2, ?Hc3; done.
Qed.

(** The three ways [add_interface] takes once the device is classified: the
    interface joins the compatible board found at its location; the board
    found there is incompatible and is discarded, a new board being made; no
    board is found there and a new board is made. *)
Lemma add_interface_cases m dev :
  let m' := fst (add_interface m dev) in
  let pn := S (brk m) in
  (snd (open_new_interface (brk m) dev) = None /\ m' = m)
  \/ exists r iface,
      open_new_interface (brk m) dev = (r, Some iface)
      /\ ((exists p b,
             find_board m (dev_location dev) = Some p /\ heap m !! p = Some b
             /\ iface_is_compatible iface b = true
             /\ heap m' = alter (attached p iface ∘ updated iface dev) p (heap m)
             /\ missing_boards m' = ty_list_remove p (missing_boards m))
          \/ (exists p b,
                find_board m (dev_location dev) = Some p /\ heap m !! p = Some b
                /\ iface_is_compatible iface b = false
                /\ heap m' = <[pn := attached pn iface (new_board iface)]>
                               (alter discarded p (heap m))
                /\ missing_boards m'
                   = ty_list_remove pn (ty_list_remove p (missing_boards m)))
          \/ (find_board m (dev_location dev) = None
              /\ heap m' = <[pn := attached pn iface (new_board iface)]> (heap m)
              /\ missing_boards m' = ty_list_remove pn (missing_boards m))).
Proof.
  cbn zeta. unfold add_interface.
  destruct (open_new_interface (brk m) dev) as [r [iface|]]; [right|left; done].
  exists r, iface. split; [reflexivity|].
  change (find_board (with_brk m (S (brk m))) (dev_location dev))
    with (find_board m (dev_location dev)).
  destruct (find_board m (dev_location dev)) as [p|] eqn:Hfind.
  - destruct (find_board_some _ _ _ Hfind) as (b & Hb & _).
    change (heap (with_brk m (S (brk m)))) with (heap m). rewrite Hb.
    destruct (iface_is_compatible iface b) eqn:Hcompat; cbn [negb].
    + left. exists p, b. repeat (split; [done|]).
      destruct (trigger_callbacks _ _ _) as [m2 r2] eqn:Htrig.
      pose proof (trigger_callbacks_frame
                    (attach_interface (update_board (with_brk m (S (brk m))) p iface dev)
                       p iface) p TY_MONITOR_EVENT_CHANGED) as Hfr.
      rewrite Htrig in Hfr. cbv zeta in Hfr. cbn [fst] in Hfr. destruct Hfr as (Hh & _ & Hmiss & _).
      cbn [fst]. rewrite Hh, Hmiss.
      rewrite attach_interface_heap, update_board_heap.
      destruct (update_board_lists (with_brk m (S (brk m))) p iface dev) as (_ & Hm2 & _).
      destruct (attach_interface_lists (update_board (with_brk m (S (brk m))) p iface dev)
                  p iface) as (_ & -> & _).
      rewrite Hm2. by rewrite alter_alter_eq.
    + right. left. exists p, b. repeat (split; [done|]).
      pose proof (discard_heap (with_brk m (S (brk m))) p b Hb) as Hdh.
      pose proof (discard_lists (with_brk m (S (brk m))) p b) as (Hdm & Hdb).
      cbn zeta in Hdm, Hdb.
      set (m1 := drop_board _ p) in *.
      unfold add_board.
      destruct (trigger_callbacks _ _ _) as [m2 r2] eqn:Htrig.
      match type of Htrig with
      | trigger_callbacks ?m3 ?q ?ev = _ =>
          pose proof (trigger_callbacks_frame m3 q ev) as Hfr
      end.
      rewrite Htrig in Hfr. cbv zeta in Hfr. cbn [fst] in Hfr. destruct Hfr as (Hh & _ & Hmiss & _).
      cbn [fst]. rewrite Hh, Hmiss, attach_interface_heap.
      cbn [attach_interface missing_boards with_missing_boards with_monitor_interfaces
           modify heap with_heap with_boards with_brk brk].
      rewrite Hdb, Hdm, Hdh. cbn [brk with_brk].
      by rewrite alter_insert_eq.
  - right. right. split; [done|].
    unfold add_board.
    destruct (trigger_callbacks _ _ _) as [m2 r2] eqn:Htrig.
    match type of Htrig with
    | trigger_callbacks ?m3 ?q ?ev = _ =>
        pose proof (trigger_callbacks_frame m3 q ev) as Hfr
    end.
    rewrite Htrig in Hfr. cbv zeta in Hfr. cbn [fst] in Hfr. destruct Hfr as (Hh & _ & Hmiss & _).
    cbn [fst]. rewrite Hh, Hmiss, attach_interface_heap.
    cbn [attach_interface missing_boards with_missing_boards with_monitor_interfaces
         modify heap with_heap with_boards with_brk brk].
    by rewrite alter_insert_eq.
Qed.

Lemma add_missing_board_effect m now p :
  let m' := fst (add_missing_board m now p) in
  heap m' = alter (set_missing_since now) p (heap m)
  /\ missing_boards m' = ty_list_remove p (missing_boards m) ++ [p]
  /\ boards m' = boards m /\ brk m' = brk m.
Proof.
  cbn zeta. unfold add_missing_board.
  destruct (head _ ≫= _); done.
Qed.

(** The ways of [remove_interface]: nothing happens to the boards; or the
    interface found for the device leaves its board, which is closed and
    joins the missing boards if that was its last interface. *)
Lemma remove_interface_cases m now dev :
  let m' := fst (remove_interface m now dev) in
  (heap m' = heap m /\ missing_boards m' = missing_boards m)
  \/ exists iface p b,
      find_interface m dev = Some iface /\ if_board iface = Some p
      /\ heap m !! p = Some b
      /\ ((interfaces (detached iface b) = []
           /\ heap m' = alter (set_missing_since now ∘ closed ∘ detached iface) p (heap m)
           /\ missing_boards m' = ty_list_remove p (missing_boards m) ++ [p])
          \/ (interfaces (detached iface b) <> []
              /\ heap m' = alter (detached iface) p (heap m)
              /\ missing_boards m' = missing_boards m)).
Proof.
  cbn zeta. unfold remove_interface.
  destruct (find_interface m dev) as [iface|] eqn:Hfind; [|by left].
  destruct (if_board iface) as [p|] eqn:Hp; [|by left].
  set (m1 := modify _ p _).
  assert (Hh1 : heap m1 = alter (detached iface) p (heap m)) by reflexivity.
  assert (Hm1 : missing_boards m1 = missing_boards m) by reflexivity.
  rewrite Hh1, lookup_alter_eq.
  destruct (heap m !! p) as [b|] eqn:Hb; cbn [fmap option_fmap option_map].
  - right. exists iface, p, b. repeat (split; [done|]).
    destruct (interfaces (detached iface b)) as [|i l] eqn:Hl.
    + left. split; [done|].
      destruct (add_missing_board_effect (close_board m1 p) now p) as (-> & -> & _).
      rewrite close_board_heap, Hh1, !alter_alter_eq.
      destruct (close_board_lists m1 p) as (_ & -> & _). by rewrite Hm1.
    + right. split; [done|].
      destruct (trigger_callbacks m1 p TY_MONITOR_EVENT_CHANGED) as [m2 r2] eqn:Htrig.
      pose proof (trigger_callbacks_frame m1 p TY_MONITOR_EVENT_CHANGED) as Hfr.
      rewrite Htrig in Hfr. cbv zeta in Hfr. cbn [fst] in Hfr.
      destruct Hfr as (Hh & _ & Hmiss & _).
      cbn [fst]. by rewrite Hh, Hmiss, Hh1, Hm1.
  - left.
    destruct (trigger_callbacks m1 p TY_MONITOR_EVENT_CHANGED) as [m2 r2] eqn:Htrig.
    pose proof (trigger_callbacks_frame m1 p TY_MONITOR_EVENT_CHANGED) as Hfr.
    rewrite Htrig in Hfr. cbv zeta in Hfr. cbn [fst] in Hfr.
    destruct Hfr as (Hh & _ & Hmiss & _).
    cbn [fst]. rewrite Hh, Hmiss, Hh1, Hm1. by rewrite alter_id'.
Qed.

(** *** Boards, one operation at a time *)

Lemma union_capabilities_snoc l i :
  union_capabilities (l ++ [i]) = Z.lor (union_capabilities l) (if_capabilities i).
Proof.
  induction l as [|j l IH]; cbn.
  - by rewrite Z.lor_0_r.
  - unfold union_capabilities in IH. rewrite IH. by rewrite Z.lor_assoc.
Qed.

Lemma rebuild_capabilities_union l :
  snd (rebuild_capabilities l) = union_capabilities l.
Proof.
  unfold rebuild_capabilities.
  assert (H : forall c a, snd (fold_left add_capabilities l (c, a))
                          = Z.lor a (union_capabilities l)).
  { induction l as [|i l IH]; intros c a.
    - cbn. by rewrite Z.lor_0_r.
    - change (fold_left add_capabilities (i :: l) (c, a))
        with (fold_left add_capabilities l
                (record_cap2iface i c, Z.lor a (if_capabilities i))).
      rewrite IH. cbn. by rewrite Z.lor_assoc. }
  by rewrite H.
Qed.

Lemma closed_ok b : board_ok (closed b).
Proof. split; [reflexivity|done]. Qed.

Lemma new_board_ok iface : board_ok (new_board iface).
Proof. split; [reflexivity|done]. Qed.

Lemma attached_ok p iface b : capabilities_united b -> board_ok (attached p iface b).
Proof.
  intros Hb. split; [|done].
  unfold capabilities_united, attached. cbn.
  rewrite union_capabilities_snoc. cbn. by rewrite Hb.
Qed.

Lemma updated_ok iface dev b : board_ok b -> board_ok (updated iface dev b).
Proof.
  intros [Hc He]. unfold updated.
  repeat case_match; try apply closed_ok; split; cbn; done.
Qed.

Lemma discarded_ok b : board_ok b -> board_ok (discarded b).
Proof.
  intros [Hc He]. unfold discarded.
  case_bool_decide as Hon; [split; [reflexivity|done]|].
  split; [exact Hc|]. cbn. auto.
Qed.

Lemma discarded_facts b :
  board_ok b ->
  state (discarded b) = TY_BOARD_STATE_DROPPED /\ interfaces (discarded b) = [].
Proof.
  intros [Hc He]. unfold discarded. split; [reflexivity|].
  case_bool_decide as Hon; [reflexivity|]. cbn. auto.
Qed.

Lemma detached_ok iface b : board_ok b -> board_ok (detached iface b).
Proof.
  intros [Hc He]. unfold detached.
  pose proof (rebuild_capabilities_union (iface_list_remove iface (interfaces b))) as Hr.
  destruct (rebuild_capabilities _) as [c2i caps]. cbn in Hr. subst caps.
  split; [reflexivity|]. cbn. intros Hs. by rewrite (He Hs).
Qed.

Lemma detached_state iface b : state (detached iface b) = state b.
Proof.
  unfold detached. by destruct (rebuild_capabilities _).
Qed.

(** *** The invariant *)

Lemma monitor_inv_new : monitor_inv ty_monitor_new.
Proof.
  split.
  - intros p b H. cbn in H. by rewrite lookup_empty in H.
  - intros p H. cbn in H. by apply elem_of_nil in H.
Qed.

Lemma elem_of_ty_list_remove p q l : q ∈ ty_list_remove p l <-> q <> p /\ q ∈ l.
Proof. unfold ty_list_remove. by rewrite list_elem_of_filter. Qed.

Lemma add_interface_inv m dev : monitor_inv m -> monitor_inv (fst (add_interface m dev)).
Proof.
  intros [Hboards Hmissing].
  destruct (add_interface_cases m dev) as [[_ ->]|(r & iface & _ & Hcase)]; [done|].
  destruct Hcase as [(p & b & _ & Hb & _ & Hh & Hm)
                    |[(p & b & _ & Hb & _ & Hh & Hm)|(_ & Hh & Hm)]];
    unfold monitor_inv; rewrite Hh, Hm; split.
  - intros q c. rewrite lookup_alter. case_decide as Hq; [|by apply Hboards].
    subst q. rewrite Hb. intros [= <-]. cbn.
    apply attached_ok, updated_ok. by apply (Hboards p).
  - intros q Hq. apply elem_of_ty_list_remove in Hq as [Hne Hq].
    rewrite lookup_alter_ne by done. by apply Hmissing.
  - intros q c. rewrite lookup_insert. case_decide as Hq.
    { intros [= <-]. apply attached_ok, new_board_ok. }
    rewrite lookup_alter. case_decide as Hq'; [|by apply Hboards].
    subst q. rewrite Hb. intros [= <-]. apply discarded_ok. by apply (Hboards p).
  - intros q Hq. apply elem_of_ty_list_remove in Hq as [Hne Hq].
    apply elem_of_ty_list_remove in Hq as [Hne' Hq].
    rewrite lookup_insert_ne, lookup_alter_ne by done. by apply Hmissing.
  - intros q c. rewrite lookup_insert. case_decide as Hq; [|by apply Hboards].
    intros [= <-]. apply attached_ok, new_board_ok.
  - intros q Hq. apply elem_of_ty_list_remove in Hq as [Hne Hq].
    rewrite lookup_insert_ne by done. by apply Hmissing.
Qed.

Lemma remove_interface_inv m now dev :
  monitor_inv m -> monitor_inv (fst (remove_interface m now dev)).
Proof.
  intros [Hboards Hmissing].
  destruct (remove_interface_cases m now dev)
    as [[Hh Hm]|(iface & p & b & _ & _ & Hb & [(Hl & Hh & Hm)|(Hl & Hh & Hm)])];
    unfold monitor_inv; rewrite Hh, Hm; [done| |]; split.
  - intros q c. rewrite lookup_alter. case_decide as Hq; [|by apply Hboards].
    subst q. rewrite Hb. intros [= <-]. cbn. apply closed_ok.
  - intros q Hq. apply elem_of_app in Hq as [Hq|Hq].
    + apply elem_of_ty_list_remove in Hq as [Hne Hq].
      rewrite lookup_alter_ne by done. by apply Hmissing.
    + apply list_elem_of_singleton in Hq as ->.
      rewrite lookup_alter_eq, Hb. by eexists.
  - intros q c. rewrite lookup_alter. case_decide as Hq; [|by apply Hboards].
    subst q. rewrite Hb. intros [= <-]. apply detached_ok. by apply (Hboards p).
  - intros q Hq. destruct (Hmissing q Hq) as (c & Hc & Hs).
    rewrite lookup_alter. case_decide as Hq'; [|by eexists].
    subst q. rewrite Hb. rewrite Hb in Hc. injection Hc as <-.
    eexists. split; [reflexivity|]. by rewrite detached_state.
Qed.

(** What the walk over the missing boards does: a board is left as it is,
    or it is in the queue, its delay has run out, and it is dropped; the
    boards that stay in the list of missing boards are left as they are. *)
Lemma drop_missing_boards_effect now queue : forall m,
  let m' := drop_missing_boards m now queue in
  (forall q,
     heap m' !! q = heap m !! q
     \/ exists b, heap m !! q = Some b /\ q ∈ queue
                  /\ ty_adjust_timeout now DROP_BOARD_DELAY (missing_since b) = 0
                  /\ heap m' !! q = Some (set_state TY_BOARD_STATE_DROPPED b))
  /\ (forall q, q ∈ missing_boards m' ->
        q ∈ missing_boards m /\ heap m' !! q = heap m !! q).
Proof.
  induction queue as [|p queue IH]; intros m; cbn zeta; cbn [drop_missing_boards].
  { split; [by left|done]. }
  destruct (heap m !! p) as [b|] eqn:Hb; [|split; [by left|done]].
  destruct (Z.eqb_spec (ty_adjust_timeout now DROP_BOARD_DELAY (missing_since b)) 0)
    as [Hz|Hnz]; cbn [negb]; [|split; [by left|done]].
  specialize (IH (drop_board m p)). cbn zeta in IH. destruct IH as [IHh IHm].
  rewrite drop_board_heap in IHh, IHm.
  destruct (drop_board_lists m p) as (_ & Hdm & _). rewrite Hdm in IHm.
  split.
  - intros q. destruct (IHh q) as [Hsame|(c & Hc & Hq & Hadj & Hdrop)].
    + rewrite Hsame, lookup_alter. case_decide as Hqp; [|by left].
      subst q. right. exists b. rewrite Hb. repeat split; try done. by left.
    + rewrite lookup_alter in Hc. case_decide as Hqp.
      * subst q. rewrite Hb in Hc. injection Hc as <-.
        right. exists b. repeat split; try done. by left.
      * right. exists c. repeat split; try done. by right.
  - intros q Hq. destruct (IHm q Hq) as [Hin Hsame].
    apply elem_of_ty_list_remove in Hin as [Hne Hin].
    split; [done|]. rewrite Hsame. by rewrite lookup_alter_ne.
Qed.

Lemma refresh_timer_inv m now :
  monitor_inv m -> monitor_inv (ty_monitor_refresh_timer m now).
Proof.
  intros [Hboards Hmissing]. unfold ty_monitor_refresh_timer.
  destruct (drop_missing_boards_effect now (missing_boards m) m) as [Hh Hm].
  split.
  - intros q c Hc. destruct (Hh q) as [Hsame|(b & Hb & Hq & _ & Hdrop)].
    + rewrite Hsame in Hc. by apply (Hboards q).
    + rewrite Hdrop in Hc. injection Hc as <-.
      destruct (Hmissing q Hq) as (b' & Hb' & Hs). rewrite Hb in Hb'. injection Hb' as <-.
      destruct (Hboards q b Hb) as [Hcaps Hempty].
      split; [exact Hcaps|]. intros _. cbn. apply Hempty. by rewrite Hs.
  - intros q Hq. destruct (Hm q Hq) as [Hin Hsame]. rewrite Hsame. by apply Hmissing.
Qed.

Lemma device_callback_heap m now dev :
  heap (fst (device_callback m now dev))
  = match dev_status dev with
    | HS_DEVICE_STATUS_ONLINE => heap (fst (add_interface m dev))
    | HS_DEVICE_STATUS_DISCONNECTED => heap (fst (remove_interface m now dev))
    end
  /\ missing_boards (fst (device_callback m now dev))
     = match dev_status dev with
       | HS_DEVICE_STATUS_ONLINE => missing_boards (fst (add_interface m dev))
       | HS_DEVICE_STATUS_DISCONNECTED => missing_boards (fst (remove_interface m now dev))
       end.
Proof.
  unfold device_callback.
  destruct (dev_status dev);
    [destruct (add_interface m dev)|destruct (remove_interface m now dev)]; done.
Qed.

Lemma step_inv m o : monitor_inv m -> monitor_inv (step m o).
Proof.
  intros Hinv. destruct o as [now dev|now]; cbn [step]; [|by apply refresh_timer_inv].
  destruct (device_callback_heap m now dev) as [Hh Hm].
  unfold monitor_inv. rewrite Hh, Hm.
  destruct (dev_status dev); [by apply add_interface_inv|by apply remove_interface_inv].
Qed.

Lemma run_snoc m ops o : run m (ops ++ [o]) = step (run m ops) o.
Proof. unfold run. by rewrite fold_left_app. Qed.

Lemma run_inv ops : monitor_inv (run ty_monitor_new ops).
Proof.
  induction ops as [|o ops IH] using rev_ind; [apply monitor_inv_new|].
  rewrite run_snoc. by apply step_inv.
Qed.

(** C1: after every operation of every trace from the new monitor, the
    capabilities of each board are the bitwise union of the capabilities of
    the interfaces of its list; a board that is missing has no interface and
    no capability. *)
Theorem capabilities_are_united (ops : list op) (p : nat) (b : ty_board) :
  heap (run ty_monitor_new ops) !! p = Some b ->
  capabilities b = union_capabilities (interfaces b)
  /\ (state b = TY_BOARD_STATE_MISSING -> interfaces b = [] /\ capabilities b = 0).
Proof.
  intros Hb. destruct (run_inv ops) as [Hboards _].
  destruct (Hboards p b Hb) as [Hcaps Hempty].
  split; [exact Hcaps|]. intros Hs.
  assert (Hl : interfaces b = []) by (apply Hempty; by rewrite Hs).
  split; [exact Hl|]. rewrite Hcaps, Hl. reflexivity.
Qed.

(** *** How a board gets missing, how it gets dropped *)

(** After an operation, a missing board either was missing before and has
    not been touched, or has just lost its last interface in this operation,
    a removal, whose clock reading is its [missing_since]. *)
Lemma step_missing m o p b' :
  monitor_inv m ->
  heap (step m o) !! p = Some b' -> state b' = TY_BOARD_STATE_MISSING ->
  heap m !! p = Some b'
  \/ exists t dev, o = OpDevice t dev /\ dev_status dev = HS_DEVICE_STATUS_DISCONNECTED
                   /\ missing_since b' = t.
Proof.
  intros [Hboards Hmissing] Hb' Hs. destruct o as [now dev|now]; cbn [step] in Hb'.
  - destruct (device_callback_heap m now dev) as [Hh _]. rewrite Hh in Hb'. clear Hh.
    destruct (dev_status dev) eqn:Hst.
    + left.
      destruct (add_interface_cases m dev) as [[_ Hsame]|(r & iface & _ & Hcase)];
        [by rewrite Hsame in Hb'|].
      destruct Hcase as [(q & b & _ & Hb & _ & Hh & _)
                        |[(q & b & _ & Hb & _ & Hh & _)|(_ & Hh & _)]];
        rewrite Hh in Hb'.
      * rewrite lookup_alter in Hb'. case_decide as Hq; [|done].
        subst q. rewrite Hb in Hb'. injection Hb' as <-. discriminate.
      * rewrite lookup_insert in Hb'. case_decide as Hq.
        { injection Hb' as <-. discriminate. }
        rewrite lookup_alter in Hb'. case_decide as Hq'; [|done].
        subst q. rewrite Hb in Hb'. injection Hb' as <-. discriminate.
      * rewrite lookup_insert in Hb'. case_decide as Hq; [|done].
        injection Hb' as <-. discriminate.
    + destruct (remove_interface_cases m now dev)
        as [[Hh _]|(iface & q & b & _ & _ & Hb & [(Hl & Hh & _)|(Hl & Hh & _)])];
        rewrite Hh in Hb'; [by left| |].
      * rewrite lookup_alter in Hb'. case_decide as Hq; [|by left].
        subst q. rewrite Hb in Hb'. injection Hb' as <-.
        right. exists now, dev. done.
      * rewrite lookup_alter in Hb'. case_decide as Hq; [|by left].
        subst q. rewrite Hb in Hb'. injection Hb' as <-.
        rewrite detached_state in Hs.
        destruct (Hboards p b Hb) as [_ Hempty].
        exfalso. apply Hl. unfold detached.
        rewrite Hempty by (by rewrite Hs). reflexivity.
  - left. unfold ty_monitor_refresh_timer in Hb'.
    destruct (drop_missing_boards_effect now (missing_boards m) m) as [Hh _].
    destruct (Hh p) as [Hsame|(b & _ & _ & _ & Hdrop)]; [by rewrite <- Hsame|].
    rewrite Hdrop in Hb'. injection Hb' as <-. discriminate.
Qed.

(** A board gets dropped in two ways only: by the timer, being missing with
    its delay run out, or by the arrival of an interface at its location
    that is not compatible with it. *)
Lemma step_dropped m o p :
  monitor_inv m -> ~ dropped m p -> dropped (step m o) p ->
  (exists now b,
      o = OpTimer now /\ heap m !! p = Some b /\ state b = TY_BOARD_STATE_MISSING
      /\ ty_adjust_timeout now DROP_BOARD_DELAY (missing_since b) = 0)
  \/ (exists now dev r iface b,
        o = OpDevice now dev /\ dev_status dev = HS_DEVICE_STATUS_ONLINE
        /\ open_new_interface (brk m) dev = (r, Some iface)
        /\ find_board m (dev_location dev) = Some p
        /\ heap m !! p = Some b
        /\ iface_is_compatible iface b = false).
Proof.
  intros [Hboards Hmissing] Hnot (b' & Hb' & Hs).
  destruct o as [now dev|now]; cbn [step] in Hb'.
  - right. destruct (device_callback_heap m now dev) as [Hh _]. rewrite Hh in Hb'. clear Hh.
    destruct (dev_status dev) eqn:Hst.
    + destruct (add_interface_cases m dev) as [[_ Hsame]|(r & iface & Hopen & Hcase)].
      { rewrite Hsame in Hb'. exfalso. apply Hnot. by exists b'. }
      destruct Hcase as [(q & b & _ & Hb & _ & Hh & _)
                        |[(q & b & Hfind & Hb & Hcompat & Hh & _)|(_ & Hh & _)]];
        rewrite Hh in Hb'.
      * rewrite lookup_alter in Hb'. case_decide as Hq.
        { subst q. rewrite Hb in Hb'. injection Hb' as <-. discriminate. }
        exfalso. apply Hnot. by exists b'.
      * rewrite lookup_insert in Hb'. case_decide as Hq.
        { injection Hb' as <-. discriminate. }
        rewrite lookup_alter in Hb'. case_decide as Hq'.
        { subst q. exists now, dev, r, iface, b. done. }
        exfalso. apply Hnot. by exists b'.
      * rewrite lookup_insert in Hb'. case_decide as Hq.
        { injection Hb' as <-. discriminate. }
        exfalso. apply Hnot. by exists b'.
    + exfalso.
      destruct (remove_interface_cases m now dev)
        as [[Hh _]|(iface & q & b & _ & _ & Hb & [(Hl & Hh & _)|(Hl & Hh & _)])];
        rewrite Hh in Hb'.
      * apply Hnot. by exists b'.
      * rewrite lookup_alter in Hb'. case_decide as Hq.
        { subst q. rewrite Hb in Hb'. injection Hb' as <-. discriminate. }
        apply Hnot. by exists b'.
      * rewrite lookup_alter in Hb'. case_decide as Hq.
        { subst q. rewrite Hb in Hb'. injection Hb' as <-.
          rewrite detached_state in Hs. apply Hnot. by exists b. }
        apply Hnot. by exists b'.
  - left. unfold ty_monitor_refresh_timer in Hb'.
    destruct (drop_missing_boards_effect now (missing_boards m) m) as [Hh _].
    destruct (Hh p) as [Hsame|(b & Hb & Hq & Hadj & Hdrop)].
    { exfalso. apply Hnot. exists b'. by rewrite <- Hsame. }
    destruct (Hmissing p Hq) as (c & Hc & Hcs). rewrite Hb in Hc. injection Hc as <-.
    exists now, b. done.
Qed.

(** A missing board has been absent without interruption since the removal
    whose clock reading is its [missing_since]. *)
Lemma missing_history ops : forall p b,
  heap (run ty_monitor_new ops) !! p = Some b -> state b = TY_BOARD_STATE_MISSING ->
  exists pre t dev mid,
    ops = pre ++ OpDevice t dev :: mid /\ missing_since b = t
    /\ absent_since pre t dev mid p.
Proof.
  induction ops as [|o ops IH] using rev_ind; intros p b Hb Hs.
  { cbn in Hb. by rewrite lookup_empty in Hb. }
  rewrite run_snoc in Hb.
  assert (Habs : absent (run ty_monitor_new (ops ++ [o])) p).
  { exists b. rewrite run_snoc. split; [done|]. split; [done|].
    destruct (step_inv (run ty_monitor_new ops) o (run_inv ops)) as [Hboards _].
    apply (Hboards p b Hb). by rewrite Hs. }
  destruct (step_missing _ o p b (run_inv ops) Hb Hs) as [Hsame|(t & dev & -> & Hst & Ht)].
  - destruct (IH p b Hsame Hs) as (pre & t & dev & mid & -> & Ht & Hst & Hmid).
    exists pre, t, dev, (mid ++ [o]).
    split; [by rewrite <- app_assoc|]. split; [done|]. split; [done|].
    intros k Hk. rewrite length_app in Hk. cbn in Hk.
    destruct (decide (k <= length mid)%nat) as [Hle|Hgt].
    + rewrite take_app_le by done. by apply Hmid.
    + rewrite take_ge by (rewrite length_app; cbn; lia).
      by rewrite <- app_assoc in Habs.
  - exists ops, t, dev, []. split; [done|]. split; [done|]. split; [done|].
    intros k Hk. by rewrite take_nil.
Qed.

Lemma adjust_timeout_zero now t :
  0 <= t <= now -> now < 2 ^ 63 ->
  ty_adjust_timeout now DROP_BOARD_DELAY t = 0 -> t + DROP_BOARD_DELAY <= now.
Proof.
  intros Ht Hnow. unfold ty_adjust_timeout, Board.adjust_timeout, DROP_BOARD_DELAY.
  cbn [Z.ltb Z.compare].
  assert (Hu : C.u64 (t + 15000) = t + 15000) by (apply Z.mod_small; lia).
  rewrite Hu. destruct (Z.ltb_spec (t + 15000) now) as [Hlt|Hge]; [lia|].
  assert (Hu' : C.u64 (t + 15000 - now) = t + 15000 - now) by (apply Z.mod_small; lia).
  rewrite Hu'. unfold C.to_int.
  rewrite (Z.mod_small (t + 15000 - now)) by lia.
  destruct (Z.ltb_spec (t + 15000 - now) (2 ^ 31)); lia.
Qed.

Lemma well_timed_before ops o t dev pre mid :
  well_timed (ops ++ [o]) -> ops = pre ++ OpDevice t dev :: mid ->
  0 <= t <= op_time o /\ op_time o < 2 ^ 63.
Proof.
  intros [Hsorted Hrange] ->.
  apply Sorted_StronglySorted in Hsorted; [|intros x y z; apply Z.le_trans].
  rewrite map_app in Hsorted. cbn [map] in Hsorted.
  assert (Hto : t <= op_time o).
  { apply (StronglySorted_app_1_elem_of _ _ _ _ _ Hsorted).
    - rewrite map_app. cbn [map]. apply elem_of_app. right. by left.
    - by left. }
  rewrite !Forall_app in Hrange. destruct Hrange as [[_ Hr] Ho].
  apply Forall_cons in Hr as [Hr _]. apply Forall_cons in Ho as [Ho _].
  cbn in Hr. lia.
Qed.

(** C2, as stated, fails: the board of the first serial device at "usb1" is
    online, with its interface, when a second device with another serial
    number shows up there; it is dropped at once, with no delay and without
    having been missing. *)
Lemma conflict_drops_without_delay :
  well_timed (conflict_trace ++ [conflict_op])
  /\ (exists b, heap (run ty_monitor_new conflict_trace) !! 1%nat = Some b
                /\ state b = TY_BOARD_STATE_ONLINE /\ length (interfaces b) = 1%nat)
  /\ dropped (step (run ty_monitor_new conflict_trace) conflict_op) 1
  /\ ~ dropped_only_after_delay conflict_trace conflict_op 1.
Proof.
  assert (Hdrop : dropped (step (run ty_monitor_new conflict_trace) conflict_op) 1).
  { eexists. split; [vm_compute; reflexivity|reflexivity]. }
  assert (Hnot : ~ dropped (run ty_monitor_new conflict_trace) 1).
  { intros (b & Hb & Hs). vm_compute in Hb. injection Hb as <-. discriminate. }
  split; [|split; [|split; [exact Hdrop|]]].
  - split.
    + cbn. repeat constructor; lia.
    + repeat constructor; cbn; lia.
  - eexists. split; [vm_compute; reflexivity|]. split; reflexivity.
  - intros H. destruct (H Hnot Hdrop) as (pre & t & dev & mid & Hops & Ht & _).
    unfold conflict_trace in Hops.
    destruct pre as [|o pre]; [|destruct pre; discriminate].
    injection Hops as <- _ _. cbn in Ht. unfold DROP_BOARD_DELAY in Ht. lia.
Qed.

(** C2, amended: a board is dropped in two ways only, and has no interface
    left when it is.  Either the drop timer fires, the board having been
    missing with no interface, without interruption, since a removal at least
    [DROP_BOARD_DELAY] (15000 ms) earlier; or a device shows up at the
    location of the board with an interface that is not compatible with it,
    and the board is closed and dropped at once. *)
Theorem drop_after_delay_or_conflict (ops : list op) (o : op) (p : nat) :
  well_timed (ops ++ [o]) ->
  ~ dropped (run ty_monitor_new ops) p ->
  dropped (step (run ty_monitor_new ops) o) p ->
  (exists b', heap (step (run ty_monitor_new ops) o) !! p = Some b'
              /\ state b' = TY_BOARD_STATE_DROPPED /\ interfaces b' = [])
  /\ ((exists now pre t dev mid,
          o = OpTimer now
          /\ ops = pre ++ OpDevice t dev :: mid
          /\ t + DROP_BOARD_DELAY <= now
          /\ absent_since pre t dev mid p)
      \/ (exists now dev r iface b,
            o = OpDevice now dev /\ dev_status dev = HS_DEVICE_STATUS_ONLINE
            /\ open_new_interface (brk (run ty_monitor_new ops)) dev = (r, Some iface)
            /\ find_board (run ty_monitor_new ops) (dev_location dev) = Some p
            /\ heap (run ty_monitor_new ops) !! p = Some b
            /\ iface_is_compatible iface b = false)).
Proof.
  intros Htimed Hnot Hdrop. split.
  - destruct Hdrop as (b' & Hb' & Hs). exists b'. split; [done|]. split; [done|].
    destruct (step_inv _ o (run_inv ops)) as [Hboards _].
    apply (Hboards p b' Hb'). by rewrite Hs.
  - destruct (step_dropped _ o p (run_inv ops) Hnot Hdrop)
      as [(now & b & -> & Hb & Hs & Hadj)|Hconflict]; [left|by right].
    destruct (missing_history ops p b Hb Hs) as (pre & t & dev & mid & Hops & Ht & Habs).
    exists now, pre, t, dev, mid. split; [done|]. split; [done|]. split; [|done].
    destruct (well_timed_before ops (OpTimer now) t dev pre mid Htimed Hops) as [Hle Hlt].
    cbn in Hle, Hlt. rewrite Ht in Hadj. by apply adjust_timeout_zero.
Qed.

Lemma drop_after_delay_or_conflict_witness :
  exists b', heap (step (run ty_monitor_new vanish_trace) (OpTimer 15005)) !! 1%nat = Some b'
             /\ state b' = TY_BOARD_STATE_DROPPED /\ interfaces b' = [].
Proof.
  apply (drop_after_delay_or_conflict vanish_trace (OpTimer 15005) 1).
  - split.
    + cbn. repeat constructor; lia.
    + repeat constructor; cbn; lia.
  - intros (b & Hb & Hs). vm_compute in Hb. injection Hb as <-. discriminate.
  - eexists. split; [vm_compute; reflexivity|reflexivity].
Defined.

Lemma capabilities_are_united_witness :
  exists b, heap (run ty_monitor_new two_interfaces_trace) !! 1%nat = Some b
            /\ length (interfaces b) = 2%nat
            /\ capabilities b = union_capabilities (interfaces b).
Proof.
  eexists. split; [vm_compute; reflexivity|]. split; [reflexivity|].
  apply (capabilities_are_united two_interfaces_trace 1). vm_compute. reflexivity.
Defined.

(** ** Serial numbers seen by the monitor *)







(** What the classifier leaves of an interface it claims. *)
Lemma classify_claimed iface r iface' :
  classify iface = (Ret r, iface') -> r <> 0 ->
  let loaded := snd (Teensy.teensy_load_interface iface) in
  r = fst (Teensy.teensy_load_interface iface)
  /\ dev_open (if_dev iface) = None
  /\ if_addr iface' = if_addr iface /\ if_dev iface' = if_dev iface
  /\ if_board iface' = if_board iface
  /\ if_name iface' = if_name loaded /\ if_model iface' = if_model loaded
  /\ if_serial iface' = parse_serial iface'
  /\ if_capabilities iface'
     = (if identifying (if_serial iface')
        then cap_set (if_capabilities loaded) TY_BOARD_CAPABILITY_UNIQUE
        else if_capabilities loaded).
Proof.
  unfold classify. intros H Hr.
  destruct (teensy_load_interface_keeps iface) as (_ & Ha & Hd & Hb).
  destruct (Teensy.teensy_load_interface iface) as [z i]. cbn [fst snd] in *.
  destruct (Z.eqb_spec z 0) as [->|Hz]; [by injection H as <- _|].
  rewrite Hd in H.
  destruct (dev_open (if_dev iface)); [discriminate|].
  injection H as <- <-.
  assert (Hp : forall j, if_dev j = if_dev i -> if_model j = if_model i ->
                         parse_serial j = parse_serial i).
  { intros j Hjd Hjm. unfold parse_serial. by rewrite Hjd, Hjm. }
  destruct (identifying (parse_serial i)) eqn:Hid; cbn;
    rewrite ?Hid; repeat split; try done; symmetry; by apply Hp.
Qed.

(** The interface the monitor creates for a device: the classifier has
    claimed it, the device has opened, and the serial is the one of the
    mode. *)
Lemma open_new_interface_spec addr dev r iface :
  open_new_interface addr dev = (r, Some iface) ->
  r = Ret 1 /\ dev_open dev = None
  /\ if_addr iface = addr /\ if_dev iface = dev /\ if_board iface = None
  /\ if_serial iface = parse_serial iface.
Proof.
  unfold open_new_interface.
  set (i0 := match dev_serial_number_string dev with
             | Some s => with_serial (new_interface addr dev) (C.strtoull s 10)
             | None => new_interface addr dev
             end).
  assert (Hi0 : if_addr i0 = addr /\ if_dev i0 = dev /\ if_board i0 = None).
  { unfold i0. by destruct (dev_serial_number_string dev). }
  destruct Hi0 as (Ha0 & Hd0 & Hb0).
  cbn [ty_board_families open_families _ty_teensy_family open_interface].
  destruct (classify i0) as [[z|e] i] eqn:Hc.
  2: { destruct (bool_decide _ || bool_decide _); cbn; discriminate. }
  destruct (Z.eqb_spec z 0) as [->|Hz].
  { cbn. discriminate. }
  destruct (0 <? z) eqn:Hpos; [|discriminate].
  intros [= <- <-].
  destruct (classify_claimed i0 z i Hc Hz) as (_ & Ho & Ha & Hd & Hb & _ & _ & Hs & _).
  rewrite Hd0 in Ho, Hd. rewrite Ha0 in Ha. rewrite Hb0 in Hb. done.
Qed.

(** A device that does not open gives no interface: the monitor takes
    NOT_FOUND and ACCESS for a device that is not its own, and hands another
    error back. *)
Lemma open_new_interface_unopened addr dev e :
  dev_open dev = Some e ->
  snd (open_new_interface addr dev) = None
  /\ (e = TY_ERROR_NOT_FOUND \/ e = TY_ERROR_ACCESS ->
      open_new_interface addr dev = (Ret 0, None))
  /\ (fst (open_new_interface addr dev) = Ret 0
      \/ fst (open_new_interface addr dev) = Err e).
Proof.
  intros Ho.
  destruct (open_new_interface addr dev) as [r [iface|]] eqn:Hopen.
  { apply open_new_interface_spec in Hopen as (_ & Hnone & _). congruence. }
  split; [reflexivity|].
  revert Hopen. unfold open_new_interface.
  set (i0 := match dev_serial_number_string dev with
             | Some s => with_serial (new_interface addr dev) (C.strtoull s 10)
             | None => new_interface addr dev
             end).
  assert (Hd0 : if_dev i0 = dev).
  { unfold i0. by destruct (dev_serial_number_string dev). }
  cbn [ty_board_families open_families _ty_teensy_family open_interface].
  unfold classify.
  destruct (teensy_load_interface_keeps i0) as (_ & _ & Hd & _).
  destruct (Teensy.teensy_load_interface i0) as [z i]. cbn [snd] in Hd.
  destruct (z =? 0).
  { cbn. intros [= <-]. split; [done|by left]. }
  rewrite Hd, Hd0, Ho.
  destruct (bool_decide (e = TY_ERROR_NOT_FOUND) || bool_decide (e = TY_ERROR_ACCESS))
    eqn:Hsw; cbn; intros [= <-].
  - split; [done|by left].
  - split; [|by right]. intros [-> | ->]; discriminate.
Qed.



